(** * ClaudeCodeSpeedTest: the concurrent probing engine

    A shallow embedding of [ClaudeCodeSpeedTest.py]: the prober
    ([test_single_request_async], [test_single_request_sync]), the route
    runners ([test_route_async], [test_route_sync]), the schedulers
    ([run_tests_async], [run_tests_sync]), the statistics
    ([calculate_stats]) and the ranking done by [generate_report].

    Conventions of the embedding.
    - Python [int] is [Z]; [str] is [string]; a [list] is a [list]; the
      [routes] dict, whose insertion order matters, is an association list.
    - Python [float] and the library functions working on it are an interface,
      [PyNum], with two implementations: [Exact] (rationals, the arithmetic
      in which the specification is written) and [Binary64] (IEEE 754 doubles,
      the arithmetic CPython executes).
    - Network, clock, thread scheduling and exceptions raised by libraries are
      inputs of the model: every function takes the part of the environment
      it observes as an explicit argument.  Rendering (rich tables, panels,
      progress bars) is left out; what it computes before printing is kept
      when it can raise. *)

From Stdlib Require Import String ZArith QArith Qcanon Bool Lia List.
From Stdlib Require Import Permutation Sorted ListSet DecimalString.
From Stdlib Require Import Floats.
Import ListNotations.

Set Implicit Arguments.
Local Open Scope Z_scope.

(* ------------------------------------------------------------------ *)
(** * Python numbers *)

(** What the program uses of Python's [float]: conversion from [int],
    decimal literals, [int / int], the four operations, unary minus, [<],
    [==] and [statistics.mean].  [div] is the quotient for a non-zero
    divisor; the [ZeroDivisionError] of Python's [/] is raised by [truediv]
    below. *)
Class PyNum : Type := {
  num : Type;
  of_Z : Z -> num;
  of_Q : Q -> num;
  ratio : Z -> Z -> num;
  add : num -> num -> num;
  sub : num -> num -> num;
  mul : num -> num -> num;
  div : num -> num -> num;
  opp : num -> num;
  ltb : num -> num -> bool;
  eqb : num -> num -> bool;
  mean : list num -> num
}.

Declare Scope num_scope.
Delimit Scope num_scope with num.
Infix "+" := add : num_scope.
Infix "-" := sub : num_scope.
Infix "*" := mul : num_scope.
Infix "/" := div : num_scope.
Notation "- x" := (opp x) : num_scope.
Infix "<?" := ltb : num_scope.
Infix "=?" := eqb : num_scope.

(** ** Exact rationals *)

Module Exact.

Definition qc_ltb (a b : Qc) : bool :=
  match (a ?= b)%Qc with Lt => true | _ => false end.

Definition qc_eqb (a b : Qc) : bool :=
  match (a ?= b)%Qc with Eq => true | _ => false end.

Definition qc_sum (l : list Qc) : Qc := fold_right Qcplus (Q2Qc 0) l.

Definition qc_mean (l : list Qc) : Qc :=
  (qc_sum l / Q2Qc (inject_Z (Z.of_nat (length l))))%Qc.

#[export] Instance exact : PyNum := {|
  num := Qc;
  of_Z := fun z => Q2Qc (inject_Z z);
  of_Q := Q2Qc;
  ratio := fun a b => (Q2Qc (inject_Z a) / Q2Qc (inject_Z b))%Qc;
  add := Qcplus;
  sub := Qcminus;
  mul := Qcmult;
  div := Qcdiv;
  opp := Qcopp;
  ltb := qc_ltb;
  eqb := qc_eqb;
  mean := qc_mean
|}.

End Exact.

(** ** IEEE 754 binary64, as CPython computes *)

Module Binary64.

(** The float nearest to a rational (ties to even): what [float(Fraction)]
    and the reading of a decimal literal return; a rational zero has no
    sign and gives [0.0]. *)
Definition round_Q (q : Q) : float :=
  let d := S754_finite false (Qden q) 0 in
  match Qnum q with
  | Z0 => PrimFloat.zero
  | Zpos n => SF2Prim (SFdiv prec emax (S754_finite false n 0) d)
  | Zneg n => SF2Prim (SFdiv prec emax (S754_finite true n 0) d)
  end.

(** [float.as_integer_ratio]: the exact value of a finite float. *)
Definition exact_ratio (x : float) : option Q :=
  match Prim2SF x with
  | S754_zero _ => Some (0 # 1)
  | S754_finite s m e =>
      let n := if s then Zneg m else Zpos m in
      Some match e with
           | Z0 => n # 1
           | Zpos p => (n * Zpos (2 ^ p)) # 1
           | Zneg p => n # (2 ^ p)
           end
  | S754_infinity _ | S754_nan => None
  end.

(** [statistics._sum]: finite values are added as exact fractions; an
    infinity or a NaN goes, by float addition, into a partial sum of its
    own, which then is the total. *)
Definition sum_step (acc : Q * option float) (x : float) : Q * option float :=
  let '(s, special) := acc in
  match exact_ratio x with
  | Some q => (Qplus s q, special)
  | None =>
      (s, Some match special with
               | None => x
               | Some y => PrimFloat.add y x
               end)
  end.

Definition exact_sum (l : list float) : Q * option float :=
  fold_left sum_step l (0 # 1, None).

(** [statistics.mean]: the exact mean, rounded once. *)
Definition fmean (l : list float) : float :=
  let n := Z.of_nat (length l) in
  match exact_sum l with
  | (s, None) => round_Q (Qred (Qdiv s (inject_Z n)))
  | (_, Some total) => PrimFloat.div total (round_Q (inject_Z n))
  end.

(** [a / b] on [int]s, [b] not zero: the quotient rounded once; a zero
    quotient takes the sign of the divisor, [0 / -3] is [-0.0]. *)
Definition int_ratio (a b : Z) : float :=
  if (a =? 0)%Z && (b <? 0)%Z then PrimFloat.opp PrimFloat.zero
  else round_Q (Qdiv (inject_Z a) (inject_Z b)).

#[export] Instance binary64 : PyNum := {|
  num := float;
  of_Z := fun z => round_Q (inject_Z z);
  of_Q := round_Q;
  ratio := int_ratio;
  add := PrimFloat.add;
  sub := PrimFloat.sub;
  mul := PrimFloat.mul;
  div := PrimFloat.div;
  opp := PrimFloat.opp;
  ltb := PrimFloat.ltb;
  eqb := PrimFloat.eqb;
  mean := fmean
|}.

(** The finite floats other than [-0.0]. *)
Definition ordinary (x : float) : bool :=
  match Prim2SF x with
  | S754_finite _ _ _ => true
  | S754_zero s => negb s
  | S754_infinity _ | S754_nan => false
  end.

(** The exact value of an ordinary float. *)
Definition value (x : float) : Q :=
  match exact_ratio x with
  | Some q => q
  | None => 0 # 1
  end.

Definition is_nan (s : spec_float) : bool :=
  match s with
  | S754_nan => true
  | _ => false
  end.

(** The place of a float in the order of [<]: its class (negative
    infinity, negative, zero, positive, positive infinity), then exponent
    and mantissa, signed. *)
Definition rank (s : spec_float) : Z * (Z * Z) :=
  match s with
  | S754_nan => (0, (0, 0))
  | S754_zero _ => (0, (0, 0))
  | S754_infinity true => (-2, (0, 0))
  | S754_infinity false => (2, (0, 0))
  | S754_finite true m e => (-1, (- e, Zneg m))
  | S754_finite false m e => (1, (e, Zpos m))
  end.

Definition lexlt (p q : Z * (Z * Z)) : Prop :=
  fst p < fst q \/
  (fst p = fst q /\
   (fst (snd p) < fst (snd q) \/
    (fst (snd p) = fst (snd q) /\ snd (snd p) < snd (snd q)))).

End Binary64.

(* ------------------------------------------------------------------ *)
(** * Exceptions *)

(** What a call yields: a value, or an exception, kept as its message. *)
Inductive Outcome (A : Type) : Type :=
| Returned (a : A)
| Raised (msg : string).
Arguments Returned {A} a.
Arguments Raised {A} msg.

Definition bind {A B} (o : Outcome A) (k : A -> Outcome B) : Outcome B :=
  match o with
  | Returned a => k a
  | Raised msg => Raised msg
  end.

Notation "x <- o ;; k" := (bind o (fun x => k))
  (at level 61, o at next level, right associativity).

(** The exceptions the prober tells apart: a timeout
    ([asyncio.TimeoutError], [requests.exceptions.Timeout]), a transport
    error ([aiohttp.ClientError], [requests.exceptions.ConnectionError]) and
    any other [Exception]. *)
Inductive exn : Type :=
| Timeout
| TransportError (msg : string)
| OtherError (msg : string).

(* ------------------------------------------------------------------ *)
(** * The network, as a probe sees it *)

(** A streamed body: chunks, until the stream ends or breaks. *)
Inductive body : Type :=
| Eof
| Broken (e : exn)
| Chunk (c : list Byte.byte) (rest : body).

Record Response : Type := {
  status : Z;
  content : body
}.

Inductive first_chunk : Type :=
| FirstByte (rest : body)
| NoData
| ReadFailed (e : exn).

(** The first loop over the body: up to the first chunk that is not empty. *)
Fixpoint await_first_chunk (b : body) : first_chunk :=
  match b with
  | Eof => NoData
  | Broken e => ReadFailed e
  | Chunk [] rest => await_first_chunk rest
  | Chunk (_ :: _) rest => FirstByte rest
  end.

(** The second loop: the rest of the body is read and dropped. *)
Fixpoint drain (b : body) : option exn :=
  match b with
  | Eof => None
  | Broken e => Some e
  | Chunk _ rest => drain rest
  end.

(** [f"HTTP {status}"] *)
Definition http_error (code : Z) : string :=
  ("HTTP " ++ NilZero.string_of_int (Z.to_int code))%string.

(* ------------------------------------------------------------------ *)
(** * Data model *)

Record RouteInfo : Type := {
  name : string;
  url : string;
  description : string
}.

(** The settings read by [load_config] that decide what is computed.
    [delay] is [delay_between_tests], the number of seconds slept after each
    probe: a float read by [getfloat], of which the finite values are taken
    here, negative ones included.  The timeout, the pool size and the two
    concurrency caps act on the environment only: on when a probe times out
    and on the order in which probes and routes complete, both inputs here.
    The caps are taken to be positive, as in the default configuration: with
    a cap of zero or less the estimate of the running time, the semaphores
    or the thread pools raise or block before a probe is sent. *)
Record Settings : Type := {
  test_count : Z;
  use_async : bool;
  delay : Q
}.

(** [time.sleep(secs)], which refuses a negative length. *)
Definition time_sleep (secs : Q) : Outcome unit :=
  if Qle_bool 0 secs then Returned tt
  else Raised "sleep length must be non-negative".

(** [await asyncio.sleep(delay)], which returns at once when the delay is
    zero or less. *)
Definition asyncio_sleep (secs : Q) : Outcome unit := Returned tt.

(** [range(n)] *)
Definition range (n : Z) : list nat := seq 0 (Z.to_nat n).

(** Removal of the element at an index. *)
Fixpoint remove_nth {A} (i : nat) (l : list A) : list A :=
  match l, i with
  | [], _ => []
  | _ :: l', O => l'
  | x :: l', S i' => x :: remove_nth i' l'
  end.

(** [concurrent.futures.as_completed]: the futures, each once, in the order
    in which they complete.  The order is the scheduler's choice: at every
    step [picks] names, among the futures still pending, the one that
    completes next; when [picks] runs out the rest complete in the order of
    submission. *)
Fixpoint as_completed {A} (picks : list nat) (pending : list A) : list A :=
  match picks, pending with
  | _, [] => []
  | [], _ => pending
  | k :: picks', x :: _ =>
      let i := (k mod length pending)%nat in
      nth i pending x :: as_completed picks' (remove_nth i pending)
  end.

(** [asyncio.gather] without [return_exceptions]: the results in the
    order of the tasks, or the exception of a task that raised (which one,
    when several raise, depends on timing; the first in task order is taken
    here). *)
Fixpoint gather {A} (tasks : list (Outcome A)) : Outcome (list A) :=
  match tasks with
  | [] => Returned []
  | t :: tasks' =>
      match t, gather tasks' with
      | Raised msg, _ => Raised msg
      | Returned _, Raised msg => Raised msg
      | Returned a, Returned l => Returned (a :: l)
      end
  end.

Section Engine.

Context {N : PyNum}.

(** [TestResult], the dataclass. *)
Record TestResult : Type := mkTestResult {
  success : bool;
  total_time : num;
  first_byte_time : num;
  error : string;
  thread_id : Z
}.

(** The dict built by [test_route_async] and [test_route_sync]. *)
Record RouteResult : Type := mkRouteResult {
  route_name : string;
  route_url : string;
  route_description : string;
  success_count : Z;
  fail_count : Z;
  total_times : list num;
  first_byte_times : list num;
  errors : list string;
  concurrent_threads : set Z
}.

(** ** Prober *)

(** One HTTP exchange: the identity of the calling thread, the readings of
    [time.perf_counter()] (at the start, at the first byte, at the end) and
    what [post] does. *)
Record Exchange : Type := {
  ident : Z;
  t_start : num;
  t_first : num;
  t_end : num;
  posted : exn + Response
}.

Definition failed (x : Exchange) (msg : string) : TestResult :=
  mkTestResult false (of_Z 0) (of_Z 0) msg (ident x).

Definition except_async (x : Exchange) (e : exn) : TestResult :=
  match e with
  | Timeout => failed x "Timeout"
  | TransportError msg => failed x ("Client Error: " ++ msg)
  | OtherError msg => failed x msg
  end.

Definition test_single_request_async (x : Exchange) : TestResult :=
  let start_time := t_start x in
  match posted x with
  | inl e => except_async x e
  | inr response =>
      if negb (status response =? 200) then
        failed x (http_error (status response))
      else
        match await_first_chunk (content response) with
        | ReadFailed e => except_async x e
        | NoData => failed x "No response data"
        | FirstByte rest =>
            let first_byte_time := t_first x in
            match drain rest with
            | Some e => except_async x e
            | None =>
                let total_time := (t_end x - start_time)%num in
                let first_byte_duration := (first_byte_time - start_time)%num in
                mkTestResult true total_time first_byte_duration "" (ident x)
            end
        end
  end.

Definition except_sync (x : Exchange) (e : exn) : TestResult :=
  match e with
  | Timeout => failed x "Timeout"
  | TransportError _ => failed x "Connection Error"
  | OtherError msg => failed x msg
  end.

Definition test_single_request_sync (x : Exchange) : TestResult :=
  let start_time := t_start x in
  match posted x with
  | inl e => except_sync x e
  | inr response =>
      if negb (status response =? 200) then
        failed x (http_error (status response))
      else
        match await_first_chunk (content response) with
        | ReadFailed e => except_sync x e
        | NoData => failed x "No response data"
        | FirstByte rest =>
            let first_byte_time := t_first x in
            match drain rest with
            | Some e => except_sync x e
            | None =>
                let total_time := (t_end x - start_time)%num in
                let first_byte_duration := (first_byte_time - start_time)%num in
                mkTestResult true total_time first_byte_duration "" (ident x)
            end
        end
  end.

(** ** RouteRunner *)

(** One probe task: the exchange of its request and, if any, the exception
    that escapes the call of the prober (one raised outside its [try]
    block, or one that is no [Exception]). *)
Record Task : Type := {
  exchange : Exchange;
  escaped : option string
}.

(** The call of a prober inside a task. *)
Definition call_prober (prober : Exchange -> TestResult) (t : Task)
  : Outcome TestResult :=
  match escaped t with
  | Some msg => Raised msg
  | None => Returned (prober (exchange t))
  end.

(** The coroutine [limited_test] of [test_route_async], around the call
    of the prober: the probe, the progress bar, the sleep. *)
Definition limited_test (cfg : Settings) (call : Outcome TestResult)
  : Outcome TestResult :=
  result <- call ;;
  _ <- asyncio_sleep (delay cfg) ;;
  Returned result.

(** The function [single_test] of [test_route_sync], around the call of
    the prober: the probe, the sleep, the progress bar. *)
Definition single_test (cfg : Settings) (call : Outcome TestResult)
  : Outcome TestResult :=
  result <- call ;;
  _ <- time_sleep (delay cfg) ;;
  Returned result.

Definition new_results (route_name : string) (route_info : RouteInfo)
  : RouteResult :=
  {| route_name := route_name;
     route_url := url route_info;
     route_description := description route_info;
     success_count := 0;
     fail_count := 0;
     total_times := [];
     first_byte_times := [];
     errors := [];
     concurrent_threads := empty_set Z |}.

(** The body of the loop over [test_results] in [test_route_async]. *)
Definition tally_async (results : RouteResult) (result : Outcome TestResult)
  : RouteResult :=
  match result with
  | Returned result =>
      let threads := set_add Z.eq_dec (thread_id result)
                       (concurrent_threads results) in
      if success result then
        {| route_name := route_name results;
           route_url := route_url results;
           route_description := route_description results;
           success_count := success_count results + 1;
           fail_count := fail_count results;
           total_times := total_times results ++ [total_time result];
           first_byte_times :=
             first_byte_times results ++ [first_byte_time result];
           errors := errors results;
           concurrent_threads := threads |}
      else
        {| route_name := route_name results;
           route_url := route_url results;
           route_description := route_description results;
           success_count := success_count results;
           fail_count := fail_count results + 1;
           total_times := total_times results;
           first_byte_times := first_byte_times results;
           errors := errors results ++ [error result];
           concurrent_threads := threads |}
  | Raised msg =>
      {| route_name := route_name results;
         route_url := route_url results;
         route_description := route_description results;
         success_count := success_count results;
         fail_count := fail_count results + 1;
         total_times := total_times results;
         first_byte_times := first_byte_times results;
         errors := errors results ++ [msg];
         concurrent_threads := concurrent_threads results |}
  end.

(** [test_route_async]: the probes are submitted up front, [gather] with
    [return_exceptions=True] hands their outcomes back in the order of
    submission. *)
Definition test_route_async (cfg : Settings) (route_name : string)
    (route_info : RouteInfo) (probe : nat -> Outcome TestResult)
  : RouteResult :=
  let tasks := map probe (range (test_count cfg)) in
  let test_results := tasks in
  fold_left tally_async test_results (new_results route_name route_info).

(** The body of the loop over [as_completed(futures)] in
    [test_route_sync]: the [try] block, then the [except] block. *)
Definition tally_sync (results : RouteResult) (future : Outcome TestResult)
  : RouteResult :=
  match future with
  | Returned result =>
      let threads := set_add Z.eq_dec (thread_id result)
                       (concurrent_threads results) in
      if success result then
        {| route_name := route_name results;
           route_url := route_url results;
           route_description := route_description results;
           success_count := success_count results + 1;
           fail_count := fail_count results;
           total_times := total_times results ++ [total_time result];
           first_byte_times :=
             first_byte_times results ++ [first_byte_time result];
           errors := errors results;
           concurrent_threads := threads |}
      else
        {| route_name := route_name results;
           route_url := route_url results;
           route_description := route_description results;
           success_count := success_count results;
           fail_count := fail_count results + 1;
           total_times := total_times results;
           first_byte_times := first_byte_times results;
           errors := errors results ++ [error result];
           concurrent_threads := threads |}
  | Raised e =>
      {| route_name := route_name results;
         route_url := route_url results;
         route_description := route_description results;
         success_count := success_count results;
         fail_count := fail_count results + 1;
         total_times := total_times results;
         first_byte_times := first_byte_times results;
         errors := errors results ++ [e];
         concurrent_threads := concurrent_threads results |}
  end.

(** [test_route_sync]: the futures are consumed as they complete; [picks]
    is the order in which the pool completes them. *)
Definition test_route_sync (cfg : Settings) (route_name : string)
    (route_info : RouteInfo) (picks : list nat)
    (probe : nat -> Outcome TestResult)
  : RouteResult :=
  let results := new_results route_name route_info in
  let futures := map probe (range (test_count cfg)) in
  fold_left tally_sync (as_completed picks futures) results.

(** ** Aggregator *)

(** The builtin [min] over [first :: rest]: the first smallest element. *)
Definition py_min (first : num) (rest : list num) : num :=
  fold_left (fun best x => if (x <? best)%num then x else best) rest first.

(** The builtin [max] over [first :: rest]: the first largest element. *)
Definition py_max (first : num) (rest : list num) : num :=
  fold_left (fun best x => if (best <? x)%num then x else best) rest first.

(** [sorted] compares with [<] only and is stable: an element goes before
    the first element of the sorted rest that is not smaller than it.  On
    data that [<] orders as a strict weak order this is the result of
    [list.sort], a stable sorted arrangement being unique there
    ([sorted_perm_unique]); on other data, a [nan] among floats, the result
    of [list.sort] depends on its run detection and merging and is not
    what this insertion gives, so what follows uses [py_sorted] on ordered
    data only. *)
Fixpoint insert_sorted {A} (lt : A -> A -> bool) (x : A) (l : list A)
  : list A :=
  match l with
  | [] => [x]
  | y :: l' => if lt y x then y :: insert_sorted lt x l' else x :: l
  end.

Definition py_sorted {A} (lt : A -> A -> bool) (l : list A) : list A :=
  fold_right (insert_sorted lt) [] l.

(** [sorted(..., reverse=True)]: the list is reversed, sorted and reversed
    again, so that elements with equal keys keep their order. *)
Definition py_sorted_reverse {A} (lt : A -> A -> bool) (l : list A)
  : list A :=
  rev (py_sorted lt (rev l)).

(** [statistics.median] of a list that is not empty. *)
Definition py_median (data : list num) : num :=
  let data := py_sorted ltb data in
  let n := length data in
  if (n mod 2 =? 1)%nat then nth (n / 2)%nat data (of_Z 0)
  else
    let i := (n / 2)%nat in
    ((nth (i - 1)%nat data (of_Z 0) + nth i data (of_Z 0)) / of_Z 2)%num.

Record Stats : Type := mkStats {
  avg : num;
  min : num;
  max : num;
  median : num
}.

Definition calculate_stats (times : list num) : Stats :=
  match times with
  | [] => {| avg := of_Z 0; min := of_Z 0; max := of_Z 0; median := of_Z 0 |}
  | first :: rest =>
      {| avg := mean times;
         min := py_min first rest;
         max := py_max first rest;
         median := py_median times |}
  end.

(** ** Python arithmetic that can raise *)

(** [statistics.mean], which raises [StatisticsError] on no data. *)
Definition statistics_mean (data : list num) : Outcome num :=
  match data with
  | [] => Raised "mean requires at least one data point"
  | _ => Returned (mean data)
  end.

(** [a / b] on two [int]s. *)
Definition int_truediv (a b : Z) : Outcome num :=
  if b =? 0 then Raised "division by zero" else Returned (ratio a b).

(** [a / b] with a [float] operand. *)
Definition truediv (a b : num) : Outcome num :=
  if (b =? of_Z 0)%num then Raised "float division by zero"
  else Returned (a / b)%num.

(** [(a1, a2) < (b1, b2)] on tuples of an [int] and a [float]: the first
    position where the tuples differ decides. *)
Definition tuple_lt (a b : Z * num) : bool :=
  if fst a =? fst b then
    if (snd a =? snd b)%num then false else (snd a <? snd b)%num
  else fst a <? fst b.

(** ** Scheduler *)

(** What a route's run observes: the exception, if any, that its runner
    raises outside its probes (a structural fault, for one the
    [ValueError] of a pool of width zero), its probe tasks, and the order
    in which the thread pool completes them. *)
Record RouteEnv : Type := {
  fault : option string;
  tasks : nat -> Task;
  probe_order : list nat
}.

(** What is computed to print the line of one route, as far as it can
    raise: the success rate divides by [test_count], the mean of
    [total_times] is taken whenever [first_byte_times] is not empty. *)
Definition route_line (cfg : Settings) (result : RouteResult)
  : Outcome unit :=
  success_rate <- (r <- int_truediv (success_count result) (test_count cfg) ;;
                   Returned (r * of_Z 100)%num) ;;
  match first_byte_times result with
  | _ :: _ =>
      avg_first_byte <- statistics_mean (first_byte_times result) ;;
      avg_total <- statistics_mean (total_times result) ;;
      Returned tt
  | [] => Returned tt
  end.

(** [test_with_semaphore] of [run_tests_async]. *)
Definition test_with_semaphore (cfg : Settings) (env : string -> RouteEnv)
    (route : string * RouteInfo) : Outcome RouteResult :=
  let '(route_name, route_info) := route in
  match fault (env route_name) with
  | Some msg => Raised msg
  | None =>
      Returned (test_route_async cfg route_name route_info
                  (fun k => limited_test cfg
                             (call_prober test_single_request_async
                                (tasks (env route_name) k))))
  end.

(** The loop over [route_results] in [run_tests_async]: each result is
    appended to [self.results], then its line is printed; an exception
    there leaves the loop and the method. *)
Fixpoint publish_async (cfg : Settings) (route_results : list RouteResult)
    (self_results : list RouteResult)
  : list RouteResult * option string :=
  match route_results with
  | [] => (self_results, None)
  | result :: route_results' =>
      let self_results := self_results ++ [result] in
      match route_line cfg result with
      | Raised msg => (self_results, Some msg)
      | Returned _ => publish_async cfg route_results' self_results
      end
  end.

(** [run_tests_async]: the new [self.results] and the exception, if any,
    that leaves the method.  [confirmed] is the answer to the prompt. *)
Definition run_tests_async (cfg : Settings)
    (routes : list (string * RouteInfo)) (confirmed : bool)
    (env : string -> RouteEnv) (self_results : list RouteResult)
  : list RouteResult * option string :=
  match routes with
  | [] => (self_results, None)
  | _ =>
      if negb confirmed then (self_results, None)
      else
        let route_tasks := map (test_with_semaphore cfg env) routes in
        match gather route_tasks with
        | Raised msg => (self_results, Some msg)
        | Returned route_results =>
            publish_async cfg route_results self_results
        end
  end.

(** What the route pool runs for one route: [test_route_sync]. *)
Definition submit_route (cfg : Settings) (env : string -> RouteEnv)
    (route : string * RouteInfo) : Outcome RouteResult :=
  let '(route_name, route_info) := route in
  match fault (env route_name) with
  | Some msg => Raised msg
  | None =>
      Returned (test_route_sync cfg route_name route_info
                  (probe_order (env route_name))
                  (fun k => single_test cfg
                             (call_prober test_single_request_sync
                                (tasks (env route_name) k))))
  end.

(** The body of the loop over [as_completed(futures)] in [run_tests_sync]:
    the result is appended, its line is printed; an exception of the
    runner, or of the printing, is caught and printed. *)
Definition publish_sync (cfg : Settings) (self_results : list RouteResult)
    (future : Outcome RouteResult) : list RouteResult :=
  match future with
  | Returned result =>
      let self_results := self_results ++ [result] in
      match route_line cfg result with
      | Returned _ => self_results
      | Raised _ => self_results
      end
  | Raised _ => self_results
  end.

(** [run_tests_sync]; [route_order] is the order in which the route pool
    completes the routes. *)
Definition run_tests_sync (cfg : Settings)
    (routes : list (string * RouteInfo)) (confirmed : bool)
    (route_order : list nat) (env : string -> RouteEnv)
    (self_results : list RouteResult)
  : list RouteResult * option string :=
  match routes with
  | [] => (self_results, None)
  | _ =>
      if negb confirmed then (self_results, None)
      else
        let futures := map (submit_route cfg env) routes in
        (fold_left (publish_sync cfg) (as_completed route_order futures)
           self_results, None)
  end.

(** ** Ranker *)

(** [url.split('//')[1].split('/')[0]]: the host shown in the table; an
    [IndexError] when the URL has no ["//"]. *)
Definition server_of (url : string) : Outcome string :=
  match index 0 "//" url with
  | None => Raised "list index out of range"
  | Some n =>
      let rest := substring (n + 2) (String.length url - (n + 2)) url in
      Returned match index 0 "/" rest with
               | None => rest
               | Some m => substring 0 m rest
               end
  end.

(** The sort key of the display order. *)
Definition sort_key (x : RouteResult) : Z * num :=
  (success_count x,
   match first_byte_times x with
   | _ :: _ => (- avg (calculate_stats (first_byte_times x)))%num
   | [] => of_Z 999
   end).

Definition sorted_results (self_results : list RouteResult)
  : list RouteResult :=
  py_sorted_reverse (fun x y => tuple_lt (sort_key x) (sort_key y))
    self_results.

(** The score of a route that has a success. *)
Definition performance_score (cfg : Settings) (result : RouteResult)
  : Outcome num :=
  success_ratio <- int_truediv (success_count result) (test_count cfg) ;;
  let avg_first_byte :=
    match first_byte_times result with
    | _ :: _ => mean (first_byte_times result)
    | [] => of_Z 999
    end in
  speed <- truediv (of_Z 1) (avg_first_byte + of_Q (1 # 10))%num ;;
  Returned (success_ratio * of_Q (7 # 10) + speed * of_Q (3 # 10))%num.

Record Row : Type := {
  row_result : RouteResult;
  row_server : string;
  row_success_rate : num
}.

Record Ranking : Type := {
  best_route : option RouteResult;
  best_score : num;
  table : list Row
}.

(** The body of the loop over [sorted_results] in [generate_report]. *)
Definition rank_step (cfg : Settings) (st : Ranking) (result : RouteResult)
  : Outcome Ranking :=
  server <- server_of (route_url result) ;;
  success_rate <- (r <- int_truediv (success_count result) (test_count cfg) ;;
                   Returned (r * of_Z 100)%num) ;;
  best <-
    (if 0 <? success_count result then
       score <- performance_score cfg result ;;
       Returned (if (best_score st <? score)%num
                 then (Some result, score)
                 else (best_route st, best_score st))
     else Returned (best_route st, best_score st)) ;;
  Returned {| best_route := fst best;
              best_score := snd best;
              table := table st ++
                       [{| row_result := result;
                           row_server := server;
                           row_success_rate := success_rate |}] |}.

Fixpoint rank_loop (cfg : Settings) (results : list RouteResult)
    (st : Ranking) : Outcome Ranking :=
  match results with
  | [] => Returned st
  | result :: results' =>
      st' <- rank_step cfg st result ;;
      rank_loop cfg results' st'
  end.

(** The panel of the recommended route. *)
Record Recommendation : Type := {
  recommended : string;
  avg_first_byte_ms : num;
  avg_total_ms : num;
  success_rate_percent : num
}.

Definition recommend (cfg : Settings) (best : RouteResult)
  : Outcome Recommendation :=
  avg_first_byte <- statistics_mean (first_byte_times best) ;;
  avg_total <- statistics_mean (total_times best) ;;
  ratio <- int_truediv (success_count best) (test_count cfg) ;;
  Returned {| recommended := route_name best;
              avg_first_byte_ms := (avg_first_byte * of_Z 1000)%num;
              avg_total_ms := (avg_total * of_Z 1000)%num;
              success_rate_percent := (ratio * of_Z 100)%num |}.

Record Report : Type := {
  report_table : list Row;
  report_best : option RouteResult;
  report_recommendation : option Recommendation
}.

(** [generate_report]: no report when there are no results; otherwise the
    table in display order, the best route and, if there is one, its
    recommendation. *)
Definition generate_report (cfg : Settings) (self_results : list RouteResult)
  : Outcome (option Report) :=
  match self_results with
  | [] => Returned None
  | _ =>
      st <- rank_loop cfg (sorted_results self_results)
              {| best_route := None;
                 best_score := of_Z (-1);
                 table := [] |} ;;
      recommendation <-
        match best_route st with
        | Some best => r <- recommend cfg best ;; Returned (Some r)
        | None => Returned None
        end ;;
      Returned (Some {| report_table := table st;
                        report_best := best_route st;
                        report_recommendation := recommendation |})
  end.

(** ** The run *)

(** The strategy-dependent part of the environment of a run. *)
Record World : Type := {
  token : string;
  confirmed : bool;
  route_env : string -> RouteEnv;
  route_order : list nat
}.

(** [show_config_info]: the host of every route is extracted for the table
    of the routes. *)
Fixpoint show_config_info (routes : list (string * RouteInfo))
  : Outcome unit :=
  match routes with
  | [] => Returned tt
  | (_, info) :: routes' =>
      host <- server_of (url info) ;;
      show_config_info routes'
  end.

(** [run]: the configuration is shown, the token is checked, the routes are
    probed with the configured strategy, the report is generated.  An
    exception that leaves [run] is printed by [main]. *)
Definition run (cfg : Settings) (routes : list (string * RouteInfo))
    (w : World) : Outcome (option Report) :=
  let self_results := [] in
  _ <- show_config_info routes ;;
  if negb (prefix "sk-" (token w)) then Returned None
  else
    let '(self_results, raised) :=
      if use_async cfg then
        run_tests_async cfg routes (confirmed w) (route_env w) self_results
      else
        run_tests_sync cfg routes (confirmed w) (route_order w)
          (route_env w) self_results in
    match raised with
    | Some msg => Raised msg
    | None => generate_report cfg self_results
    end.

End Engine.

(* ------------------------------------------------------------------ *)
(** * Laws of the numbers *)

(** What the proofs about statistics and ordering use of the numbers.  [ok]
    singles out the ordinary values: every rational in [Exact]; in
    [Binary64] the finite floats other than the negative zero, which
    excludes the values ([nan], the infinities, [-0.0]) on which [<] and
    [==] are not a total order with Leibniz equality. *)
Class PyNumLaws (N : PyNum) (ok : num -> Prop) : Prop := {
  ok_zero : ok (of_Z 0);
  ok_sentinel : ok (of_Z 999);
  ltb_irrefl : forall a, ok a -> (a <? a)%num = false;
  ltb_trans : forall a b c, ok a -> ok b -> ok c ->
    (a <? b)%num = true -> (b <? c)%num = true -> (a <? c)%num = true;
  ltb_total : forall a b, ok a -> ok b ->
    (a <? b)%num = false -> (b <? a)%num = false -> a = b;
  eqb_eq : forall a b, ok a -> ok b -> ((a =? b)%num = true <-> a = b);
  ltb_opp : forall a b, ok a -> ok b -> (- a <? - b)%num = (b <? a)%num;
  eqb_opp : forall a b, ok a -> ok b -> (- a =? - b)%num = (a =? b)%num;
  mean_perm : forall l l', Forall ok l -> Permutation l l' -> mean l = mean l'
}.

(** The successes and the error messages among the outcomes of the probes
    of a route. *)
Definition successes {N : PyNum} (outs : list (Outcome TestResult))
  : list TestResult :=
  flat_map (fun o => match o with
                     | Returned r => if success r then [r] else []
                     | Raised _ => []
                     end) outs.

Definition failures {N : PyNum} (outs : list (Outcome TestResult))
  : list string :=
  flat_map (fun o => match o with
                     | Returned r => if success r then [] else [error r]
                     | Raised msg => [msg]
                     end) outs.

(** The results that the runners of the routes returned. *)
Definition returned {A} (outs : list (Outcome A)) : list A :=
  flat_map (fun o => match o with
                     | Returned a => [a]
                     | Raised _ => []
                     end) outs.

(** [a] may stand before [b] in ascending order. *)
Definition ascending {A} (lt : A -> A -> bool) (a b : A) : Prop :=
  lt b a = false.

Section Vocabulary.

Context {N : PyNum}.

(** The runner of a route under each strategy, and whether it returns. *)
Definition runs (env : string -> RouteEnv) (route : string * RouteInfo)
  : bool :=
  match fault (env (fst route)) with
  | Some _ => false
  | None => true
  end.

Definition route_async (cfg : Settings) (env : string -> RouteEnv)
    (route : string * RouteInfo) : RouteResult :=
  test_route_async cfg (fst route) (snd route)
    (fun k => limited_test cfg
               (call_prober test_single_request_async
                  (tasks (env (fst route)) k))).

Definition route_sync (cfg : Settings) (env : string -> RouteEnv)
    (route : string * RouteInfo) : RouteResult :=
  test_route_sync cfg (fst route) (snd route)
    (probe_order (env (fst route)))
    (fun k => single_test cfg
               (call_prober test_single_request_sync
                  (tasks (env (fst route)) k))).

(** The runner of a route under each strategy around a prober that is given
    by the outcomes of its calls: what [test_route_async] and
    [test_route_sync] compute when [test_single_request_async] and
    [test_single_request_sync] are replaced by a fake. *)
Definition runner_async (cfg : Settings) (rn : string) (ri : RouteInfo)
    (prober : nat -> Outcome TestResult) : RouteResult :=
  test_route_async cfg rn ri (fun k => limited_test cfg (prober k)).

Definition runner_sync (cfg : Settings) (rn : string) (ri : RouteInfo)
    (picks : list nat) (prober : nat -> Outcome TestResult) : RouteResult :=
  test_route_sync cfg rn ri picks (fun k => single_test cfg (prober k)).

(** The route that the report of a run recommends. *)
Definition recommended_by (o : Outcome (option Report)) : option string :=
  match o with
  | Returned (Some report) =>
      option_map recommended (report_recommendation report)
  | _ => None
  end.

(** The score as the specification writes it: the formula, on the success
    count, the test count and the mean first-byte duration. *)
Definition score_formula (successes tests : Z) (mean_first_byte : num)
  : num :=
  (ratio successes tests * of_Q (7 # 10)
   + of_Z 1 / (mean_first_byte + of_Q (1 # 10)) * of_Q (3 # 10))%num.

(** The mean first-byte duration shown for a route. *)
Definition avg_first_byte (r : RouteResult) : num :=
  avg (calculate_stats (first_byte_times r)).

(** The results that the runners build have one first-byte duration for
    each success; a result is rankable when moreover the mean of these
    durations is an ordinary number. *)
Definition rankable (ok : num -> Prop) (r : RouteResult) : Prop :=
  Z.of_nat (length (first_byte_times r)) = success_count r /\
  ok (avg_first_byte r).

(** [a] may be shown before [b]: more successes, or as many and either
    none at all or a mean of the first-byte durations, [statistics.mean] of
    the sequence itself, that is not larger. *)
Definition shown_before (a b : RouteResult) : Prop :=
  success_count b < success_count a \/
  (success_count a = success_count b /\
   (success_count a = 0 \/
    (mean (first_byte_times b) <? mean (first_byte_times a))%num = false)).

Definition key_lt (a b : RouteResult) : bool :=
  tuple_lt (sort_key a) (sort_key b).

End Vocabulary.

(* ------------------------------------------------------------------ *)
(** * Inputs of the examples *)

Section Inputs.

Context {N : PyNum}.

Definition info_a : RouteInfo :=
  {| name := "A"; url := "https://a.example/v1/messages";
     description := "Main" |}.

Definition info_b : RouteInfo :=
  {| name := "B"; url := "https://b.example/v1/messages";
     description := "CDN" |}.

Definition two_routes : list (string * RouteInfo) :=
  [("A"%string, info_a); ("B"%string, info_b)].

(** An exchange that is served: status 200 and a body of two chunks, the
    first byte after [first] seconds, the last after [total]. *)
Definition served (thread : Z) (first total : Q) : Exchange :=
  {| ident := thread;
     t_start := of_Z 0;
     t_first := of_Q first;
     t_end := of_Q total;
     posted := inr {| status := 200;
                      content := Chunk [Byte.x64] (Chunk [Byte.x61] Eof) |} |}.

(** An exchange that is refused with status 503. *)
Definition refused (thread : Z) : Exchange :=
  {| ident := thread;
     t_start := of_Z 0;
     t_first := of_Z 0;
     t_end := of_Z 0;
     posted := inr {| status := 503; content := Eof |} |}.

(** An exchange that times out. *)
Definition timed_out (thread : Z) : Exchange :=
  {| ident := thread;
     t_start := of_Z 0;
     t_first := of_Z 0;
     t_end := of_Z 0;
     posted := inl Timeout |}.

Definition two_probes : Settings :=
  {| test_count := 2; use_async := false; delay := 1 # 5 |}.

Definition two_probes_async : Settings :=
  {| test_count := 2; use_async := true; delay := 1 # 5 |}.

(** Every probe is served; no runner raises. *)
Definition calm : string -> RouteEnv :=
  fun _ =>
    {| fault := None;
       tasks := fun _ => {| exchange := served 1 (1 # 4) (1 # 2);
                            escaped := None |};
       probe_order := [] |}.

(** The runner of route A raises. *)
Definition a_faults : string -> RouteEnv :=
  fun route_name =>
    {| fault := if String.eqb route_name "A" then Some "boom"%string
                else None;
       tasks := fun _ => {| exchange := served 1 (1 # 4) (1 # 2);
                            escaped := None |};
       probe_order := [] |}.

Definition a_faults_world : World :=
  {| token := "sk-test";
     confirmed := true;
     route_env := a_faults;
     route_order := [] |}.

(** A prober whose four probes are served, refused, interrupted by an
    exception, and served. *)
Definition four_probes : Settings :=
  {| test_count := 4; use_async := true; delay := 1 # 5 |}.

Definition mixed_prober (k : nat) : Outcome TestResult :=
  match k with
  | 0%nat => Returned (test_single_request_sync (served 1 (1 # 8) (1 # 4)))
  | 1%nat => Returned (test_single_request_sync (refused 2))
  | 2%nat => Raised "cancelled"
  | _ => Returned (test_single_request_sync (served 3 (1 # 2) (3 # 4)))
  end.

(** Two probes with [delay_between_tests = -1]. *)
Definition negative_delay : Settings :=
  {| test_count := 2; use_async := false; delay := Qmake (-1) 1 |}.

(** A fake prober whose every call succeeds with the same durations. *)
Definition always_served (k : nat) : Outcome TestResult :=
  Returned (mkTestResult true (of_Q (1 # 2)) (of_Q (1 # 4)) "" 1).

(** Ten probes, all served with a first byte after 0.05 s. *)
Definition ten_probes : Settings :=
  {| test_count := 10; use_async := true; delay := 1 # 5 |}.

Definition route_ten : RouteResult :=
  test_route_async ten_probes "A" info_a
    (fun _ => Returned (test_single_request_async
                          (served 1 (5 # 100) (12 # 100)))).

(** A route with [n] successes out of ten, each with the same first-byte
    duration. *)
Definition route_with (route_name : string) (n : nat) (first : Q)
  : RouteResult :=
  test_route_async ten_probes route_name info_a
    (fun k => Returned (test_single_request_async
                          (if (k <? n)%nat then served 1 first (1 # 1)
                           else timed_out 1))).

End Inputs.

(* ------------------------------------------------------------------ *)
(** * Configuration *)

(** [d[k] = v] on a dict, kept in insertion order: the value of a key that
    is present is replaced in place, a new key goes to the end. *)
Fixpoint dict_set {V} (k : string) (v : V) (d : list (string * V))
  : list (string * V) :=
  match d with
  | [] => [(k, v)]
  | (k', v') :: d' =>
      if String.eqb k k' then (k, v) :: d' else (k', v') :: dict_set k v d'
  end.

(** What [load_config] reads of one section of the file: its name and what
    [getboolean(section, 'enabled', fallback=True)], [get(section, 'name')],
    [get(section, 'url')] and [get(section, 'description', fallback='')]
    yield, each a value or the exception of [configparser]. *)
Record SectionView : Type := {
  section_name : string;
  enabled : Outcome bool;
  read_name : Outcome string;
  read_url : Outcome string;
  read_description : Outcome string
}.

(** The loop of [load_config] over [config.sections()], from the routes
    loaded so far; an exception is caught by [load_config], which prints it
    and exits. *)
Fixpoint load_routes (sections : list SectionView)
    (routes : list (string * RouteInfo)) : Outcome (list (string * RouteInfo)) :=
  match sections with
  | [] => Returned routes
  | s :: sections' =>
      if prefix "route_" (section_name s) then
        on <- enabled s ;;
        if on : bool then
          n <- read_name s ;;
          u <- read_url s ;;
          d <- read_description s ;;
          let route_info := {| name := n; url := u; description := d |} in
          load_routes sections' (dict_set (name route_info) route_info routes)
        else load_routes sections' routes
      else load_routes sections' routes
  end.

(** The sections that [load_config] takes a route from. *)
Definition is_route (s : SectionView) : Prop :=
  prefix "route_" (section_name s) = true /\ enabled s = Returned true.

(** The route that such a section describes. *)
Definition describes (s : SectionView) (info : RouteInfo) : Prop :=
  is_route s /\
  read_name s = Returned (name info) /\
  read_url s = Returned (url info) /\
  read_description s = Returned (description info).

(** The options that [load_config] asks of a section can be read. *)
Definition readable (s : SectionView) : Prop :=
  prefix "route_" (section_name s) = true ->
  exists on, enabled s = Returned on /\
    (on = true -> exists info, describes s info).

(* ------------------------------------------------------------------ *)
(** * Vocabulary of the further properties *)

(** All the bytes of a body. *)
Fixpoint payload (b : body) : list Byte.byte :=
  match b with
  | Eof => []
  | Broken _ => []
  | Chunk c rest => c ++ payload rest
  end.

Section MoreVocabulary.

Context {N : PyNum}.

(** The result of a probe that is served to the end. *)
Definition served_result (x : Exchange) : TestResult :=
  mkTestResult true (t_end x - t_start x)%num (t_first x - t_start x)%num
    "" (ident x).

(** The cases of a probe, decided on the whole body: what the cooperative
    prober [a] and the thread-based prober [s] return in each. *)
Definition probe_case (x : Exchange) (a s : TestResult) : Prop :=
  match posted x with
  | inl e => a = except_async x e /\ s = except_sync x e
  | inr response =>
      if status response =? 200 then
        match drain (content response), payload (content response) with
        | Some e, _ => a = except_async x e /\ s = except_sync x e
        | None, [] =>
            a = failed x "No response data" /\
            s = failed x "No response data"
        | None, _ :: _ => a = served_result x /\ s = served_result x
        end
      else
        a = failed x (http_error (status response)) /\
        s = failed x (http_error (status response))
  end.

(** The threads of the probes that returned. *)
Definition thread_ids (outs : list (Outcome TestResult)) : list Z :=
  flat_map (fun o => match o with
                     | Returned r => [thread_id r]
                     | Raised _ => []
                     end) outs.

(** Two results tie in the display order. *)
Definition ties (a b : RouteResult) : bool :=
  (success_count a =? success_count b)
  && (avg_first_byte a =? avg_first_byte b)%num.

(** What [generate_report] needs of a result not to raise: a URL with
    ["//"], and, when the route has a success, durations to take the mean of
    and a mean first-byte duration other than -0.1. *)
Definition reportable (r : RouteResult) : Prop :=
  (exists host, server_of (route_url r) = Returned host) /\
  (0 < success_count r ->
   first_byte_times r <> [] /\ total_times r <> [] /\
   (mean (first_byte_times r) + of_Q (1 # 10) =? of_Z 0)%num = false).

End MoreVocabulary.

(* ------------------------------------------------------------------ *)
(** * Inputs of the further examples *)

(** A configuration that asks for no probe. *)
Definition no_probes : Settings :=
  {| test_count := 0; use_async := true; delay := 1 # 5 |}.

(** A route whose URL has no ["//"]. *)
Definition info_c : RouteInfo :=
  {| name := "C"; url := "c.example/v1/messages"; description := "" |}.

(** Route A again, at another URL. *)
Definition info_a' : RouteInfo :=
  {| name := "A"; url := "https://a2.example/v1/messages";
     description := "Main" |}.

(** The section of an enabled route. *)
Definition route_section (section : string) (info : RouteInfo)
  : SectionView :=
  {| section_name := section;
     enabled := Returned true;
     read_name := Returned (name info);
     read_url := Returned (url info);
     read_description := Returned (description info) |}.

(** A section that is switched off, and one that is no route: their options
    are not read. *)
Definition off_section : SectionView :=
  {| section_name := "route_us_west";
     enabled := Returned false;
     read_name := Raised "No option 'name' in section: 'route_us_west'";
     read_url := Raised "No option 'url' in section: 'route_us_west'";
     read_description := Returned ""%string |}.

Definition concurrent_section : SectionView :=
  {| section_name := "concurrent";
     enabled := Raised "Not a boolean";
     read_name := Raised "No option 'name' in section: 'concurrent'";
     read_url := Raised "No option 'url' in section: 'concurrent'";
     read_description := Returned ""%string |}.

Definition some_sections : list SectionView :=
  [route_section "route_Main" info_a; concurrent_section;
   route_section "route_Main2" info_a'; off_section;
   route_section "route_CDN" info_b].

Section MoreInputs.

Context {N : PyNum}.

(** A run that is confirmed, with a valid token, in which every probe is
    served; route B completes first. *)
Definition calm_world : World :=
  {| token := "sk-test";
     confirmed := true;
     route_env := calm;
     route_order := [1%nat] |}.

End MoreInputs.

(* ------------------------------------------------------------------ *)
(** * Completion orders *)

Section Completion.

Context {A : Type}.

Lemma remove_nth_perm (i : nat) (l : list A) (d : A) :
  (i < length l)%nat -> Permutation (nth i l d :: remove_nth i l) l.
Proof.
  revert i; induction l as [|x l IH]; intros [|i] Hi; simpl in *;
    try lia; auto.
  rewrite perm_swap. constructor. apply IH. lia.
Qed.

(** Whatever the picks, [as_completed] yields every future once. *)
Lemma as_completed_perm (picks : list nat) (pending : list A) :
  Permutation (as_completed picks pending) pending.
Proof.
  revert pending; induction picks as [|k picks IH]; intros [|x l];
    simpl; auto.
  set (i := (k mod S (length l))%nat).
  assert (Hi : (i < length (x :: l))%nat)
    by (simpl; apply Nat.mod_upper_bound; lia).
  rewrite <- (remove_nth_perm (x :: l) x Hi) at 2.
  constructor. apply IH.
Qed.

Lemma as_completed_length (picks : list nat) (pending : list A) :
  length (as_completed picks pending) = length pending.
Proof. apply Permutation_length, as_completed_perm. Qed.

Lemma as_completed_nil (picks : list nat) :
  as_completed picks (@nil A) = [].
Proof. destruct picks; reflexivity. Qed.

(** Without picks the futures complete in the order of submission. *)
Lemma as_completed_fifo (pending : list A) :
  as_completed [] pending = pending.
Proof. destruct pending; reflexivity. Qed.

(** Every order of completion is the choice of some picks. *)
Lemma as_completed_any (pending l : list A) :
  Permutation l pending -> exists picks, as_completed picks pending = l.
Proof.
  revert pending; induction l as [|a l IH]; intros pending HP.
  - apply Permutation_nil in HP; subst. exists []. reflexivity.
  - assert (Hin : In a pending)
      by (eapply Permutation_in; [exact HP | left; reflexivity]).
    destruct (in_split a pending Hin) as (l1 & l2 & ->).
    apply Permutation_cons_app_inv in HP.
    destruct (IH _ HP) as [picks Hp].
    exists (length l1 :: picks).
    assert (Hlt : (length l1 < length (l1 ++ a :: l2))%nat)
      by (rewrite length_app; simpl; lia).
    assert (Hnth : forall d, nth (length l1) (l1 ++ a :: l2) d = a).
    { intro d. rewrite app_nth2, Nat.sub_diag by lia. reflexivity. }
    assert (Hrem : remove_nth (length l1) (l1 ++ a :: l2) = l1 ++ l2).
    { clear. induction l1; simpl; [reflexivity | now f_equal]. }
    destruct (l1 ++ a :: l2) as [|x q] eqn:E.
    + destruct l1; discriminate.
    + cbn [as_completed]. rewrite Nat.mod_small by exact Hlt.
      rewrite Hnth, Hrem, Hp. reflexivity.
Qed.

End Completion.

(* ------------------------------------------------------------------ *)
(** * Prober and RouteRunner *)

Section RunnerFacts.

Context {N : PyNum}.

Lemma range_length (n : Z) : length (range n) = Z.to_nat n.
Proof. apply length_seq. Qed.

(** The two loops over the outcomes of the probes do the same. *)
Lemma tally_sync_async (results : RouteResult) (o : Outcome TestResult) :
  tally_sync results o = tally_async results o.
Proof. destruct o; reflexivity. Qed.

Lemma fold_tally_sync_async (outs : list (Outcome TestResult))
    (results : RouteResult) :
  fold_left tally_sync outs results = fold_left tally_async outs results.
Proof.
  revert results; induction outs as [|o outs IH]; intro results; simpl.
  - reflexivity.
  - rewrite tally_sync_async. apply IH.
Qed.

Lemma successes_failures_length (outs : list (Outcome TestResult)) :
  (length (successes outs) + length (failures outs) = length outs)%nat.
Proof.
  induction outs as [|[r|msg] outs IH]; simpl; auto.
  - destruct (success r); simpl; lia.
  - lia.
Qed.

Lemma successes_cons_success (t : TestResult) outs :
  success t = true -> successes (Returned t :: outs) = t :: successes outs.
Proof. intro E. unfold successes. simpl. rewrite E. reflexivity. Qed.

Lemma successes_cons_failure (t : TestResult) outs :
  success t = false -> successes (Returned t :: outs) = successes outs.
Proof. intro E. unfold successes. simpl. rewrite E. reflexivity. Qed.

Lemma successes_cons_raised (msg : string) outs :
  successes (Raised msg :: outs) = successes outs.
Proof. reflexivity. Qed.

Lemma failures_cons_success (t : TestResult) outs :
  success t = true -> failures (Returned t :: outs) = failures outs.
Proof. intro E. unfold failures. simpl. rewrite E. reflexivity. Qed.

Lemma failures_cons_failure (t : TestResult) outs :
  success t = false ->
  failures (Returned t :: outs) = error t :: failures outs.
Proof. intro E. unfold failures. simpl. rewrite E. reflexivity. Qed.

Lemma failures_cons_raised (msg : string) outs :
  failures (Raised msg :: outs) = msg :: failures outs.
Proof. reflexivity. Qed.

Lemma successes_perm (outs outs' : list (Outcome TestResult)) :
  Permutation outs outs' -> Permutation (successes outs) (successes outs').
Proof. apply Permutation_flat_map. Qed.

Lemma failures_perm (outs outs' : list (Outcome TestResult)) :
  Permutation outs outs' -> Permutation (failures outs) (failures outs').
Proof. apply Permutation_flat_map. Qed.

(** What the loop leaves in the dict, field by field. *)
Lemma fold_tally (outs : list (Outcome TestResult)) (r : RouteResult) :
  let r' := fold_left tally_async outs r in
  route_name r' = route_name r /\
  route_url r' = route_url r /\
  route_description r' = route_description r /\
  success_count r' = success_count r + Z.of_nat (length (successes outs)) /\
  fail_count r' = fail_count r + Z.of_nat (length (failures outs)) /\
  total_times r' = total_times r ++ map total_time (successes outs) /\
  first_byte_times r' =
    first_byte_times r ++ map first_byte_time (successes outs) /\
  errors r' = errors r ++ failures outs.
Proof.
  revert r; induction outs as [|o outs IH]; intro r; cbn zeta.
  - simpl. rewrite !app_nil_r, !Z.add_0_r. repeat split; reflexivity.
  - cbn [fold_left].
    destruct (IH (tally_async r o)) as (H1 & H2 & H3 & H4 & H5 & H6 & H7 & H8).
    rewrite H1, H2, H3, H4, H5, H6, H7, H8. clear.
    destruct o as [t|msg]; [destruct (success t) eqn:E|].
    + rewrite (successes_cons_success t outs E), (failures_cons_success t outs E).
      cbn [tally_async]. rewrite E. cbn [route_name route_url
        route_description success_count fail_count total_times
        first_byte_times errors length map].
      rewrite <- !app_assoc, Nat2Z.inj_succ.
      repeat split; try reflexivity; lia.
    + rewrite (successes_cons_failure t outs E), (failures_cons_failure t outs E).
      cbn [tally_async]. rewrite E. cbn [route_name route_url
        route_description success_count fail_count total_times
        first_byte_times errors length map].
      rewrite <- !app_assoc, Nat2Z.inj_succ.
      repeat split; try reflexivity; lia.
    + rewrite successes_cons_raised, failures_cons_raised.
      cbn [tally_async route_name route_url
        route_description success_count fail_count total_times
        first_byte_times errors length map].
      rewrite <- !app_assoc, Nat2Z.inj_succ.
      repeat split; try reflexivity; lia.
Qed.

(** The prober returns a failure with both durations at zero. *)
Lemma failed_zero (x : Exchange) (msg : string) :
  let r := failed x msg in
  success r = false /\ total_time r = of_Z 0 /\ first_byte_time r = of_Z 0.
Proof. repeat split. Qed.

Lemma except_async_zero (x : Exchange) (e : exn) :
  total_time (except_async x e) = of_Z 0 /\
  first_byte_time (except_async x e) = of_Z 0.
Proof. destruct e; split; reflexivity. Qed.

Lemma except_sync_zero (x : Exchange) (e : exn) :
  total_time (except_sync x e) = of_Z 0 /\
  first_byte_time (except_sync x e) = of_Z 0.
Proof. destruct e; split; reflexivity. Qed.

(** C9: a probe that fails, for whatever reason, under either strategy,
    returns a [TestResult] whose total duration and first-byte duration are
    both zero. *)
Theorem failed_probe_has_zero_durations (x : Exchange) :
  (success (test_single_request_async x) = false ->
     total_time (test_single_request_async x) = of_Z 0 /\
     first_byte_time (test_single_request_async x) = of_Z 0) /\
  (success (test_single_request_sync x) = false ->
     total_time (test_single_request_sync x) = of_Z 0 /\
     first_byte_time (test_single_request_sync x) = of_Z 0).
Proof.
  unfold test_single_request_async, test_single_request_sync.
  destruct (posted x) as [e|response].
  - split; intros _; [apply except_async_zero | apply except_sync_zero].
  - destruct (negb (status response =? 200)).
    + split; intros _; split; reflexivity.
    + destruct (await_first_chunk (content response)) as [rest| |e].
      * destruct (drain rest) as [e|].
        -- split; intros _; [apply except_async_zero | apply except_sync_zero].
        -- split; cbn; discriminate.
      * split; intros _; split; reflexivity.
      * split; intros _; [apply except_async_zero | apply except_sync_zero].
Qed.

(** C4: whatever the outcomes of the probes (successes, failures,
    exceptions), the result of a route has success_count + fail_count equal
    to test_count, under both strategies. *)
Theorem count_invariant (cfg : Settings) (route_name : string)
    (route_info : RouteInfo) (picks : list nat)
    (probe : nat -> Outcome TestResult) :
  0 <= test_count cfg ->
  (let r := test_route_async cfg route_name route_info probe in
   success_count r + fail_count r = test_count cfg) /\
  (let r := test_route_sync cfg route_name route_info picks probe in
   success_count r + fail_count r = test_count cfg).
Proof.
  intro Hn. unfold test_route_async, test_route_sync. cbn zeta.
  change (@tally_sync N) with (@tally_async N). split.
  - destruct (fold_tally (map probe (range (test_count cfg)))
                (new_results route_name route_info))
      as (_ & _ & _ & Hs & Hf & _).
    rewrite Hs, Hf. cbn [new_results success_count fail_count].
    pose proof (successes_failures_length
                  (map probe (range (test_count cfg)))) as HL.
    rewrite length_map, range_length in HL. lia.
  - destruct (fold_tally
                (as_completed picks (map probe (range (test_count cfg))))
                (new_results route_name route_info))
      as (_ & _ & _ & Hs & Hf & _).
    rewrite Hs, Hf. cbn [new_results success_count fail_count].
    pose proof (successes_failures_length
                  (as_completed picks (map probe (range (test_count cfg)))))
      as HL.
    rewrite as_completed_length, length_map, range_length in HL. lia.
Qed.

(** C10: in the result of a route, under both strategies, the two
    sequences of durations have success_count elements each and the
    sequence of error messages has fail_count elements. *)
Theorem sequence_lengths (cfg : Settings) (route_name : string)
    (route_info : RouteInfo) (picks : list nat)
    (probe : nat -> Outcome TestResult) :
  (let r := test_route_async cfg route_name route_info probe in
   Z.of_nat (length (total_times r)) = success_count r /\
   Z.of_nat (length (first_byte_times r)) = success_count r /\
   Z.of_nat (length (errors r)) = fail_count r) /\
  (let r := test_route_sync cfg route_name route_info picks probe in
   Z.of_nat (length (total_times r)) = success_count r /\
   Z.of_nat (length (first_byte_times r)) = success_count r /\
   Z.of_nat (length (errors r)) = fail_count r).
Proof.
  unfold test_route_async, test_route_sync. cbn zeta.
  change (@tally_sync N) with (@tally_async N). split.
  - destruct (fold_tally (map probe (range (test_count cfg)))
                (new_results route_name route_info))
      as (_ & _ & _ & Hs & Hf & Ht & Hb & He).
    rewrite Hs, Hf, Ht, Hb, He. cbn [new_results success_count fail_count
      total_times first_byte_times errors app].
    rewrite !length_map. repeat split; lia.
  - destruct (fold_tally
                (as_completed picks (map probe (range (test_count cfg))))
                (new_results route_name route_info))
      as (_ & _ & _ & Hs & Hf & Ht & Hb & He).
    rewrite Hs, Hf, Ht, Hb, He. cbn [new_results success_count fail_count
      total_times first_byte_times errors app].
    rewrite !length_map. repeat split; lia.
Qed.

End RunnerFacts.

(* ------------------------------------------------------------------ *)
(** * Scheduler *)

Section Futures.

Context {A B : Type}.

Lemma remove_nth_map (f : A -> B) (i : nat) (l : list A) :
  remove_nth i (map f l) = map f (remove_nth i l).
Proof.
  revert i; induction l as [|x l IH]; intros [|i]; simpl; auto.
  now rewrite IH.
Qed.

Lemma as_completed_map (f : A -> B) (picks : list nat) (l : list A) :
  as_completed picks (map f l) = map f (as_completed picks l).
Proof.
  revert l; induction picks as [|k picks IH]; intros [|x l]; auto.
  cbn [as_completed map]. rewrite <- IH. cbn [map length].
  rewrite length_map.
  change (f x :: map f l) with (map f (x :: l)).
  rewrite map_nth, remove_nth_map. reflexivity.
Qed.

Lemma gather_inv (tasks : list (Outcome A)) (l : list A) :
  gather tasks = Returned l -> tasks = map Returned l.
Proof.
  revert l; induction tasks as [|[a|msg] tasks IH]; intros l H; simpl in H.
  - injection H as <-. reflexivity.
  - destruct (gather tasks) as [l'|msg]; [|discriminate].
    injection H as <-. simpl. f_equal. now apply IH.
  - discriminate.
Qed.

Lemma gather_map_returned (l : list A) :
  gather (map Returned l) = Returned l.
Proof. induction l as [|a l IH]; simpl; [|rewrite IH]; reflexivity. Qed.

Lemma gather_raised (tasks : list (Outcome A)) (msg : string) :
  In (Raised msg) tasks -> exists msg', gather tasks = Raised msg'.
Proof.
  induction tasks as [|[a|m] tasks IH]; simpl; intros H.
  - contradiction.
  - destruct H as [H|H]; [discriminate|].
    destruct (IH H) as [m' ->]. eauto.
  - eauto.
Qed.

Lemma returned_map_returned (l : list A) : returned (map Returned l) = l.
Proof. induction l as [|a l IH]; simpl; [|rewrite IH]; reflexivity. Qed.

End Futures.

Section SchedulerFacts.

Context {N : PyNum}.

Lemma test_route_async_name cfg rn ri probe :
  route_name (test_route_async cfg rn ri probe) = rn.
Proof.
  unfold test_route_async.
  destruct (fold_tally (map probe (range (test_count cfg)))
              (new_results rn ri)) as (H & _).
  exact H.
Qed.

Lemma test_route_sync_name cfg rn ri picks probe :
  route_name (test_route_sync cfg rn ri picks probe) = rn.
Proof.
  unfold test_route_sync. change (@tally_sync N) with (@tally_async N).
  destruct (fold_tally
              (as_completed picks (map probe (range (test_count cfg))))
              (new_results rn ri)) as (H & _).
  exact H.
Qed.

Lemma test_with_semaphore_runs cfg env route :
  test_with_semaphore cfg env route =
  if runs env route then Returned (route_async cfg env route)
  else Raised match fault (env (fst route)) with
              | Some msg => msg
              | None => EmptyString
              end.
Proof.
  destruct route as [rn ri]. unfold test_with_semaphore, runs, route_async.
  cbn [fst snd]. destruct (fault (env rn)); reflexivity.
Qed.

Lemma submit_route_runs cfg env route :
  submit_route cfg env route =
  if runs env route then Returned (route_sync cfg env route)
  else Raised match fault (env (fst route)) with
              | Some msg => msg
              | None => EmptyString
              end.
Proof.
  destruct route as [rn ri]. unfold submit_route, runs, route_sync.
  cbn [fst snd]. destruct (fault (env rn)); reflexivity.
Qed.

Lemma returned_submitted cfg env (routes : list (string * RouteInfo)) :
  returned (map (submit_route cfg env) routes)
  = map (route_sync cfg env) (filter (runs env) routes).
Proof.
  induction routes as [|route routes IH]; [reflexivity|].
  cbn [map filter returned flat_map]. fold (returned (map (submit_route cfg env) routes)).
  rewrite IH, submit_route_runs. destruct (runs env route); reflexivity.
Qed.

Lemma publish_sync_fold cfg (futures : list (Outcome RouteResult))
    (self_results : list RouteResult) :
  fold_left (publish_sync cfg) futures self_results
  = self_results ++ returned futures.
Proof.
  revert self_results; induction futures as [|f futures IH];
    intro self_results.
  - simpl. now rewrite app_nil_r.
  - cbn [fold_left]. rewrite IH. destruct f as [r|msg]; cbn [publish_sync].
    + destruct (route_line cfg r); simpl; now rewrite <- app_assoc.
    + reflexivity.
Qed.

(** What [run_tests_sync] leaves in [self.results]: the results of the
    runners that returned, in the order of completion. *)
Lemma run_tests_sync_results cfg routes order env self_results :
  run_tests_sync cfg routes true order env self_results =
  (self_results ++
     map (route_sync cfg env) (filter (runs env) (as_completed order routes)),
   None).
Proof.
  unfold run_tests_sync. destruct routes as [|route routes].
  - rewrite as_completed_nil. simpl. now rewrite app_nil_r.
  - cbn [negb]. rewrite publish_sync_fold, as_completed_map,
      returned_submitted. reflexivity.
Qed.

Lemma publish_async_normal cfg route_results self_results rs :
  publish_async cfg route_results self_results = (rs, None) ->
  rs = self_results ++ route_results.
Proof.
  revert self_results; induction route_results as [|r route_results IH];
    intros self_results H; simpl in H.
  - injection H as <-. now rewrite app_nil_r.
  - destruct (route_line cfg r); [|discriminate].
    rewrite (IH _ H), <- app_assoc. reflexivity.
Qed.

Lemma publish_async_lines cfg route_results self_results :
  (forall r, In r route_results -> route_line cfg r = Returned tt) ->
  publish_async cfg route_results self_results
  = (self_results ++ route_results, None).
Proof.
  revert self_results; induction route_results as [|r route_results IH];
    intros self_results H; simpl.
  - now rewrite app_nil_r.
  - rewrite (H r) by (left; reflexivity).
    rewrite IH by (intros; apply H; now right).
    now rewrite <- app_assoc.
Qed.

(** The line of a result that a runner built can be printed. *)
Lemma route_line_built cfg (outs : list (Outcome TestResult)) rn ri :
  test_count cfg <> 0 ->
  route_line cfg (fold_left tally_async outs (new_results rn ri))
  = Returned tt.
Proof.
  intro Hn. unfold route_line, int_truediv.
  destruct (test_count cfg =? 0) eqn:E; [apply Z.eqb_eq in E; contradiction|].
  cbn [bind].
  destruct (fold_tally outs (new_results rn ri))
    as (_ & _ & _ & _ & _ & Ht & Hb & _).
  rewrite Ht, Hb. cbn [new_results total_times first_byte_times app].
  destruct (successes outs); reflexivity.
Qed.

Lemma gather_routes cfg env routes route_results :
  gather (map (test_with_semaphore cfg env) routes) = Returned route_results ->
  route_results = map (route_async cfg env) routes.
Proof.
  intro H. apply gather_inv in H.
  revert route_results H; induction routes as [|route routes IH];
    intros [|r rs] H; try discriminate; [reflexivity|].
  cbn [map] in *. injection H as H1 H2.
  rewrite test_with_semaphore_runs in H1.
  destruct (runs env route); [|discriminate].
  injection H1 as <-. f_equal. now apply IH.
Qed.

Lemma gather_routes_no_fault cfg env routes :
  forallb (runs env) routes = true ->
  gather (map (test_with_semaphore cfg env) routes)
  = Returned (map (route_async cfg env) routes).
Proof.
  intro H. rewrite <- gather_map_returned, map_map. f_equal.
  apply map_ext_in. intros route Hin.
  rewrite forallb_forall in H. rewrite test_with_semaphore_runs, (H _ Hin).
  reflexivity.
Qed.

Lemma route_async_name cfg env route :
  route_name (route_async cfg env route) = fst route.
Proof. apply test_route_async_name. Qed.

Lemma route_sync_name cfg env route :
  route_name (route_sync cfg env route) = fst route.
Proof. apply test_route_sync_name. Qed.

(** The order of the results under each strategy: under the cooperative
    one a run that completes leaves the results in the order of the
    configuration, and it completes when no runner raises and test_count is
    not zero; under the thread-based one the results are in the order in
    which the runners that returned completed. *)
Lemma results_order_by_strategy (cfg : Settings)
    (routes : list (string * RouteInfo)) (env : string -> RouteEnv)
    (order : list nat) :
  (forall rs, run_tests_async cfg routes true env [] = (rs, None) ->
     map route_name rs = map fst routes) /\
  (forallb (runs env) routes = true -> test_count cfg <> 0 ->
     run_tests_async cfg routes true env []
     = (map (route_async cfg env) routes, None)) /\
  map route_name (fst (run_tests_sync cfg routes true order env []))
  = map fst (filter (runs env) (as_completed order routes)).
Proof.
  split; [|split].
  - intros rs H. unfold run_tests_async in H.
    destruct routes as [|route routes].
    + injection H as <-. reflexivity.
    + cbn [negb] in H.
      destruct (gather (map (test_with_semaphore cfg env) (route :: routes)))
        as [route_results|msg] eqn:G; [|discriminate].
      apply gather_routes in G. apply publish_async_normal in H.
      subst. cbn [app]. rewrite map_map. apply map_ext.
      intro r. apply route_async_name.
  - intros Hruns Hn. unfold run_tests_async.
    destruct routes as [|route routes]; [reflexivity|].
    cbn [negb]. rewrite gather_routes_no_fault by exact Hruns.
    apply publish_async_lines. intros r Hin.
    apply in_map_iff in Hin. destruct Hin as (rt & <- & _).
    apply route_line_built, Hn.
  - rewrite run_tests_sync_results. cbn [fst app].
    rewrite map_map. apply map_ext. intro r. apply route_sync_name.
Qed.

(** C2, as the code has it: under the thread-based strategy the run is not
    aborted by a runner that raises; no result is recorded for the route of
    such a runner, and the result of every other route is recorded. *)
Theorem faulted_route_is_skipped (cfg : Settings)
    (routes : list (string * RouteInfo)) (env : string -> RouteEnv)
    (order : list nat) (rn : string) (ri : RouteInfo) :
  In (rn, ri) routes ->
  let run := run_tests_sync cfg routes true order env [] in
  snd run = None /\
  match fault (env rn) with
  | Some _ => ~ In rn (map route_name (fst run))
  | None => In (route_sync cfg env (rn, ri)) (fst run)
  end.
Proof.
  intros Hin run. subst run. rewrite run_tests_sync_results.
  cbn [fst snd app]. split; [reflexivity|].
  destruct (fault (env rn)) as [msg|] eqn:F.
  - rewrite in_map_iff. intros (r & Hname & Hr).
    apply in_map_iff in Hr. destruct Hr as (route & <- & Hroute).
    apply filter_In in Hroute. destruct Hroute as [_ Hruns].
    rewrite route_sync_name in Hname. unfold runs in Hruns.
    rewrite Hname, F in Hruns. discriminate.
  - apply in_map. apply filter_In. split.
    + eapply Permutation_in; [|exact Hin].
      apply Permutation_sym, as_completed_perm.
    + unfold runs. cbn [fst]. now rewrite F.
Qed.

End SchedulerFacts.

(* ------------------------------------------------------------------ *)
(** * Sorting *)

Section SortFacts.

Context {A : Type} (lt : A -> A -> bool) (P : A -> Prop).

(** On the elements that satisfy [P], [lt] is a strict weak order. *)
Hypothesis lt_asym : forall a b, P a -> P b -> lt a b = true -> lt b a = false.
Hypothesis lt_negtrans : forall a b c, P a -> P b -> P c ->
  lt b a = false -> lt c b = false -> lt c a = false.

Lemma insert_sorted_perm (x : A) (l : list A) :
  Permutation (insert_sorted lt x l) (x :: l).
Proof.
  induction l as [|y l IH]; simpl; [reflexivity|].
  destruct (lt y x); [|reflexivity].
  rewrite IH. apply perm_swap.
Qed.

Lemma py_sorted_perm (l : list A) : Permutation (py_sorted lt l) l.
Proof.
  induction l as [|x l IH]; simpl; [reflexivity|].
  rewrite insert_sorted_perm. now constructor.
Qed.

Lemma py_sorted_reverse_perm (l : list A) :
  Permutation (py_sorted_reverse lt l) l.
Proof.
  unfold py_sorted_reverse.
  rewrite <- Permutation_rev, py_sorted_perm. apply Permutation_sym, Permutation_rev.
Qed.

Lemma insert_sorted_Forall (Q : A -> Prop) (x : A) (l : list A) :
  Q x -> Forall Q l -> Forall Q (insert_sorted lt x l).
Proof.
  intros Hx Hl. eapply Permutation_Forall.
  - apply Permutation_sym, insert_sorted_perm.
  - now constructor.
Qed.

Lemma insert_sorted_sorted (x : A) (l : list A) :
  P x -> Forall P l ->
  StronglySorted (ascending lt) l -> StronglySorted (ascending lt) (insert_sorted lt x l).
Proof.
  intros Hx Hl Hs. induction Hs as [|y l Hs IH Hy]; simpl.
  - repeat constructor.
  - inversion Hl as [|? ? Py Pl]; subst.
    destruct (lt y x) eqn:E.
    + constructor; [now apply IH|].
      apply insert_sorted_Forall; [|exact Hy].
      unfold ascending. now apply lt_asym.
    + constructor; [now constructor|].
      constructor; [exact E|].
      rewrite Forall_forall in *. intros z Hz.
      unfold ascending in *. apply lt_negtrans with (b := y); auto.
Qed.

Lemma py_sorted_Forall (Q : A -> Prop) (l : list A) :
  Forall Q l -> Forall Q (py_sorted lt l).
Proof.
  intro H. eapply Permutation_Forall; [|exact H].
  apply Permutation_sym, py_sorted_perm.
Qed.

Lemma py_sorted_sorted (l : list A) :
  Forall P l -> StronglySorted (ascending lt) (py_sorted lt l).
Proof.
  induction 1 as [|x l Hx Hl IH]; simpl; [constructor|].
  apply insert_sorted_sorted; auto. now apply py_sorted_Forall.
Qed.

Lemma StronglySorted_snoc (R : A -> A -> Prop) (l : list A) (x : A) :
  StronglySorted R l -> Forall (fun y => R y x) l ->
  StronglySorted R (l ++ [x]).
Proof.
  induction 1 as [|y l Hs IH Hy]; intro H; simpl.
  - repeat constructor.
  - inversion H; subst. constructor; [now apply IH|].
    apply Forall_app. split; [exact Hy|]. now repeat constructor.
Qed.

Lemma StronglySorted_rev (R : A -> A -> Prop) (l : list A) :
  StronglySorted R l -> StronglySorted (fun a b => R b a) (rev l).
Proof.
  induction 1 as [|y l Hs IH Hy]; simpl; [constructor|].
  apply StronglySorted_snoc; [exact IH|].
  apply Forall_rev. exact Hy.
Qed.

(** In the result of [sorted(..., reverse=True)] no element is smaller
    than one that follows it. *)
Lemma py_sorted_reverse_sorted (l : list A) :
  Forall P l ->
  StronglySorted (fun a b => lt a b = false) (py_sorted_reverse lt l).
Proof.
  intro H. unfold py_sorted_reverse.
  apply (StronglySorted_rev (R := ascending lt)).
  apply py_sorted_sorted. now apply Forall_rev.
Qed.

(** Where [lt] is moreover total, a list has one sorted permutation. *)
Hypothesis lt_total : forall a b, P a -> P b ->
  lt a b = false -> lt b a = false -> a = b.

Lemma sorted_perm_unique (l l' : list A) :
  Forall P l ->
  StronglySorted (ascending lt) l -> StronglySorted (ascending lt) l' ->
  Permutation l l' -> l = l'.
Proof.
  intros HP Hs; revert l'.
  induction Hs as [|a l Hs IH Ha]; intros l' Hs' Hperm.
  - apply Permutation_nil in Hperm. now subst.
  - destruct Hs' as [|b l' Hs' Hb].
    + apply Permutation_sym, Permutation_nil in Hperm. discriminate.
    + inversion HP as [|? ? Pa Pl]; subst.
      assert (Pb : P b).
      { apply Permutation_sym in Hperm.
        rewrite Forall_forall in HP. apply HP.
        eapply Permutation_in; [exact Hperm | now left]. }
      assert (Hab : a = b).
      { rewrite Forall_forall in Ha, Hb. unfold ascending in *.
        assert (Hin1 : In a (b :: l'))
          by (eapply Permutation_in; [exact Hperm | now left]).
        assert (Hin2 : In b (a :: l))
          by (eapply Permutation_in;
              [apply Permutation_sym; exact Hperm | now left]).
        destruct Hin1 as [->|Hin1]; [reflexivity|].
        destruct Hin2 as [->|Hin2]; [reflexivity|].
        apply lt_total; auto. }
      subst b. f_equal. apply IH; auto.
      eapply Permutation_cons_inv; exact Hperm.
Qed.

Lemma py_sorted_perm_eq (l l' : list A) :
  Forall P l -> Permutation l l' -> py_sorted lt l = py_sorted lt l'.
Proof.
  intros HP Hperm.
  assert (HP' : Forall P l') by (eapply Permutation_Forall; eauto).
  apply sorted_perm_unique.
  - now apply py_sorted_Forall.
  - now apply py_sorted_sorted.
  - now apply py_sorted_sorted.
  - rewrite !py_sorted_perm. exact Hperm.
Qed.

End SortFacts.

(* ------------------------------------------------------------------ *)
(** * Aggregator *)

Section StatsFacts.

Context {N : PyNum} {ok : num -> Prop} {L : PyNumLaws N ok}.

Lemma ltb_asym (a b : num) :
  ok a -> ok b -> (a <? b)%num = true -> (b <? a)%num = false.
Proof.
  intros Ha Hb H. destruct (b <? a)%num eqn:E; [|reflexivity].
  rewrite <- (ltb_irrefl a Ha). symmetry. now apply ltb_trans with b.
Qed.

Lemma ltb_negtrans (a b c : num) :
  ok a -> ok b -> ok c ->
  (b <? a)%num = false -> (c <? b)%num = false -> (c <? a)%num = false.
Proof.
  intros Ha Hb Hc Hab Hbc. destruct (c <? a)%num eqn:E; [|reflexivity].
  destruct (b <? c)%num eqn:Ebc.
  - rewrite <- Hab. symmetry. now apply ltb_trans with c.
  - assert (b = c) by now apply ltb_total. subst. congruence.
Qed.

Lemma py_min_spec (rest : list num) (first : num) :
  ok first -> Forall ok rest ->
  In (py_min first rest) (first :: rest) /\
  forall x, In x (first :: rest) -> (x <? py_min first rest)%num = false.
Proof.
  intros Hf Hr; revert first Hf.
  induction Hr as [|y rest Hy Hr IH]; intros first Hf.
  - simpl. split; [now left|]. intros x [<-|[]]. now apply ltb_irrefl.
  - unfold py_min. cbn [fold_left].
    set (best := if (y <? first)%num then y else first).
    assert (Hb : ok best) by (unfold best; destruct (y <? first)%num; auto).
    destruct (IH best Hb) as [Hin Hmin]. fold (py_min best rest).
    assert (Hm : ok (py_min best rest)).
    { destruct Hin as [<-|Hin]; [exact Hb|].
      rewrite Forall_forall in Hr. now apply Hr. }
    split.
    + destruct Hin as [Hin|Hin]; [|now right; right].
      rewrite <- Hin. unfold best. destruct (y <? first)%num; simpl; auto.
    + assert (Hbf : (first <? best)%num = false).
      { unfold best. destruct (y <? first)%num eqn:E.
        - now apply ltb_asym.
        - now apply ltb_irrefl. }
      assert (Hby : (y <? best)%num = false).
      { unfold best. destruct (y <? first)%num eqn:E.
        - now apply ltb_irrefl.
        - exact E. }
      intros x [<-|[<-|Hx]].
      * apply ltb_negtrans with best; auto. apply Hmin. now left.
      * apply ltb_negtrans with best; auto. apply Hmin. now left.
      * apply Hmin. now right.
Qed.

Lemma py_max_spec (rest : list num) (first : num) :
  ok first -> Forall ok rest ->
  In (py_max first rest) (first :: rest) /\
  forall x, In x (first :: rest) -> (py_max first rest <? x)%num = false.
Proof.
  intros Hf Hr; revert first Hf.
  induction Hr as [|y rest Hy Hr IH]; intros first Hf.
  - simpl. split; [now left|]. intros x [<-|[]]. now apply ltb_irrefl.
  - unfold py_max. cbn [fold_left].
    set (best := if (first <? y)%num then y else first).
    assert (Hb : ok best) by (unfold best; destruct (first <? y)%num; auto).
    destruct (IH best Hb) as [Hin Hmax]. fold (py_max best rest).
    assert (Hm : ok (py_max best rest)).
    { destruct Hin as [<-|Hin]; [exact Hb|].
      rewrite Forall_forall in Hr. now apply Hr. }
    split.
    + destruct Hin as [Hin|Hin]; [|now right; right].
      rewrite <- Hin. unfold best. destruct (first <? y)%num; simpl; auto.
    + assert (Hbf : (best <? first)%num = false).
      { unfold best. destruct (first <? y)%num eqn:E.
        - now apply ltb_asym.
        - now apply ltb_irrefl. }
      assert (Hby : (best <? y)%num = false).
      { unfold best. destruct (first <? y)%num eqn:E.
        - now apply ltb_irrefl.
        - exact E. }
      intros x [<-|[<-|Hx]].
      * apply ltb_negtrans with best; auto. apply Hmax. now left.
      * apply ltb_negtrans with best; auto. apply Hmax. now left.
      * apply Hmax. now right.
Qed.

Lemma py_min_perm (a b : num) (l l' : list num) :
  Forall ok (a :: l) -> Permutation (a :: l) (b :: l') ->
  py_min a l = py_min b l'.
Proof.
  intros Hok Hperm.
  assert (Hok' : Forall ok (b :: l')) by (eapply Permutation_Forall; eauto).
  inversion Hok; inversion Hok'; subst.
  destruct (@py_min_spec l a) as [Hin Hmin]; auto.
  destruct (@py_min_spec l' b) as [Hin' Hmin']; auto.
  rewrite Forall_forall in Hok, Hok'.
  apply ltb_total; auto.
  - apply Hmin'. eapply Permutation_in; eauto.
  - apply Hmin. eapply Permutation_in; [apply Permutation_sym|]; eauto.
Qed.

Lemma py_max_perm (a b : num) (l l' : list num) :
  Forall ok (a :: l) -> Permutation (a :: l) (b :: l') ->
  py_max a l = py_max b l'.
Proof.
  intros Hok Hperm.
  assert (Hok' : Forall ok (b :: l')) by (eapply Permutation_Forall; eauto).
  inversion Hok; inversion Hok'; subst.
  destruct (@py_max_spec l a) as [Hin Hmax]; auto.
  destruct (@py_max_spec l' b) as [Hin' Hmax']; auto.
  rewrite Forall_forall in Hok, Hok'.
  apply ltb_total; auto.
  - apply Hmax. eapply Permutation_in; [apply Permutation_sym|]; eauto.
  - apply Hmax'. eapply Permutation_in; eauto.
Qed.

Lemma py_median_perm (l l' : list num) :
  Forall ok l -> Permutation l l' -> py_median l = py_median l'.
Proof.
  intros Hok Hperm. unfold py_median.
  assert (E : py_sorted ltb l = py_sorted ltb l').
  { apply py_sorted_perm_eq with (P := ok); auto.
    - intros a b. now apply ltb_asym.
    - intros a b c Ha Hb Hc Hab Hbc. now apply ltb_negtrans with b.
    - intros a b. now apply ltb_total. }
  now rewrite E.
Qed.

(** The statistics of a sequence do not depend on its order. *)
Lemma calculate_stats_perm (l l' : list num) :
  Forall ok l -> Permutation l l' -> calculate_stats l = calculate_stats l'.
Proof.
  intros Hok Hperm. destruct l as [|a l], l' as [|b l'].
  - reflexivity.
  - apply Permutation_nil in Hperm. discriminate.
  - apply Permutation_sym, Permutation_nil in Hperm. discriminate.
  - unfold calculate_stats.
    rewrite (mean_perm Hok Hperm), (py_min_perm Hok Hperm),
      (py_max_perm Hok Hperm), (py_median_perm Hok Hperm).
    reflexivity.
Qed.

(** With the same outcomes of the probe tasks, whatever the order in which
    the thread pool completes them, the loops of the cooperative and of the
    thread-based runner of a route return the same success_count, the same
    fail_count and the same statistics of the two sequences of durations. *)
Lemma strategies_agree (cfg : Settings) (rn : string) (ri : RouteInfo)
    (picks : list nat) (probe : nat -> Outcome TestResult) :
  (forall k r, probe k = Returned r -> success r = true ->
     ok (total_time r) /\ ok (first_byte_time r)) ->
  let a := test_route_async cfg rn ri probe in
  let s := test_route_sync cfg rn ri picks probe in
  success_count a = success_count s /\
  fail_count a = fail_count s /\
  calculate_stats (total_times a) = calculate_stats (total_times s) /\
  calculate_stats (first_byte_times a)
  = calculate_stats (first_byte_times s).
Proof.
  intros Hok a s. subst a s. unfold test_route_async, test_route_sync.
  change (@tally_sync N) with (@tally_async N).
  set (outs := map probe (range (test_count cfg))).
  assert (Hperm : Permutation outs (as_completed picks outs))
    by apply Permutation_sym, as_completed_perm.
  destruct (fold_tally outs (new_results rn ri))
    as (_ & _ & _ & Hs & Hf & Ht & Hb & _).
  destruct (fold_tally (as_completed picks outs) (new_results rn ri))
    as (_ & _ & _ & Hs' & Hf' & Ht' & Hb' & _).
  rewrite Hs, Hf, Ht, Hb, Hs', Hf', Ht', Hb'.
  cbn [new_results success_count fail_count total_times first_byte_times app].
  pose proof (successes_perm Hperm) as HS.
  pose proof (failures_perm Hperm) as HF.
  assert (Hall : Forall (fun r => ok (total_time r) /\ ok (first_byte_time r))
                   (successes outs)).
  { rewrite Forall_forall. intros r Hr. unfold successes in Hr.
    apply in_flat_map in Hr. destruct Hr as ([r'|msg] & Hin & Hr); [|easy].
    destruct (success r') eqn:E; [|easy]. destruct Hr as [<-|[]].
    unfold outs in Hin. apply in_map_iff in Hin. destruct Hin as (k & Hk & _).
    now apply (Hok k). }
  repeat split.
  - now rewrite (Permutation_length HS).
  - now rewrite (Permutation_length HF).
  - apply calculate_stats_perm; [|now apply Permutation_map].
    rewrite Forall_map. eapply Forall_impl; [|exact Hall]. now intros r [].
  - apply calculate_stats_perm; [|now apply Permutation_map].
    rewrite Forall_map. eapply Forall_impl; [|exact Hall]. now intros r [].
Qed.

Lemma limited_test_call (cfg : Settings) (call : Outcome TestResult) :
  limited_test cfg call = call.
Proof. destruct call; reflexivity. Qed.

Lemma single_test_call (cfg : Settings) (call : Outcome TestResult) :
  Qle_bool 0 (delay cfg) = true -> single_test cfg call = call.
Proof.
  intro H. unfold single_test, time_sleep. rewrite H.
  destruct call; reflexivity.
Qed.

Lemma single_test_negative (cfg : Settings) (call : Outcome TestResult) :
  Qle_bool 0 (delay cfg) = false ->
  single_test cfg call
  = match call with
    | Returned _ => Raised "sleep length must be non-negative"
    | Raised msg => Raised msg
    end.
Proof.
  intro H. unfold single_test, time_sleep. rewrite H.
  destruct call; reflexivity.
Qed.

(** With a delay that is not negative the two runners agree around any
    fake prober. *)
Lemma runners_agree_when_delay_not_negative (cfg : Settings) (rn : string)
    (ri : RouteInfo) (picks : list nat)
    (prober : nat -> Outcome TestResult) :
  Qle_bool 0 (delay cfg) = true ->
  (forall k r, prober k = Returned r -> success r = true ->
     ok (total_time r) /\ ok (first_byte_time r)) ->
  let a := runner_async cfg rn ri prober in
  let s := runner_sync cfg rn ri picks prober in
  success_count a = success_count s /\
  fail_count a = fail_count s /\
  calculate_stats (total_times a) = calculate_stats (total_times s) /\
  calculate_stats (first_byte_times a)
  = calculate_stats (first_byte_times s).
Proof.
  intros Hd Hok. cbn zeta. unfold runner_async, runner_sync,
    test_route_async, test_route_sync.
  rewrite (map_ext (fun k => limited_test cfg (prober k)) prober)
    by (intro k; apply limited_test_call).
  rewrite (map_ext (fun k => single_test cfg (prober k)) prober)
    by (intro k; now apply single_test_call).
  exact (strategies_agree cfg rn ri picks prober Hok).
Qed.

End StatsFacts.

(* ------------------------------------------------------------------ *)
(** * Ranker *)

Section RankerFacts.

Context {N : PyNum}.

Lemma performance_score_formula (cfg : Settings) (r : RouteResult) :
  test_count cfg <> 0 ->
  first_byte_times r <> [] ->
  (mean (first_byte_times r) + of_Q (1 # 10) =? of_Z 0)%num = false ->
  performance_score cfg r
  = Returned (score_formula (success_count r) (test_count cfg)
                (mean (first_byte_times r))).
Proof.
  intros Hn Hne Hz. unfold performance_score, int_truediv, truediv.
  destruct (test_count cfg =? 0) eqn:E; [apply Z.eqb_eq in E; contradiction|].
  cbn [bind]. destruct (first_byte_times r) as [|t ts] eqn:Et; [contradiction|].
  rewrite Hz. reflexivity.
Qed.

(** What one turn of the loop does to the best route. *)
Lemma rank_step_best (cfg : Settings) (st st' : Ranking) (r : RouteResult) :
  rank_step cfg st r = Returned st' ->
  if 0 <? success_count r then
    exists score, performance_score cfg r = Returned score /\
      (best_route st', best_score st') =
      if (best_score st <? score)%num then (Some r, score)
      else (best_route st, best_score st)
  else (best_route st', best_score st') = (best_route st, best_score st).
Proof.
  unfold rank_step. destruct (server_of (route_url r)); [|discriminate].
  cbn [bind].
  destruct (int_truediv (success_count r) (test_count cfg)); [|discriminate].
  cbn [bind]. destruct (0 <? success_count r).
  - destruct (performance_score cfg r) as [score|]; [|discriminate].
    cbn [bind]. intro H. injection H as <-. exists score. split; [reflexivity|].
    cbn [best_route best_score]. now destruct (best_score st <? score)%num.
  - cbn [bind]. intro H. injection H as <-. reflexivity.
Qed.

Lemma rank_loop_best (cfg : Settings) (results : list RouteResult)
    (st st' : Ranking) :
  rank_loop cfg results st = Returned st' ->
  best_route st' = best_route st \/
  exists best, best_route st' = Some best /\ In best results /\
               0 < success_count best.
Proof.
  revert st; induction results as [|r results IH]; intros st H; simpl in H.
  - injection H as <-. now left.
  - destruct (rank_step cfg st r) as [st1|] eqn:E; [|discriminate].
    cbn [bind] in H. apply rank_step_best in E.
    destruct (IH _ H) as [Hsame|(best & Hb & Hin & Hpos)].
    + destruct (0 <? success_count r) eqn:Epos.
      * destruct E as (score & _ & E).
        destruct (best_score st <? score)%num; injection E as E1 E2.
        -- right. exists r. rewrite Hsame, E1. repeat split; [now left|].
           now apply Z.ltb_lt.
        -- left. congruence.
      * injection E as E1 E2. left. congruence.
    + right. exists best. repeat split; auto. now right.
Qed.

Lemma rank_loop_no_success (cfg : Settings) (results : list RouteResult)
    (st st' : Ranking) :
  (forall r, In r results -> success_count r = 0) ->
  rank_loop cfg results st = Returned st' ->
  best_route st' = best_route st.
Proof.
  intros Hzero H. destruct (rank_loop_best _ _ _ H)
    as [Hsame|(best & _ & Hin & Hpos)]; [exact Hsame|].
  rewrite (Hzero _ Hin) in Hpos. lia.
Qed.

(** With no success anywhere the loop cannot raise but on a test count of
    zero or on a URL without ["//"]. *)
Lemma rank_loop_returns (cfg : Settings) (results : list RouteResult)
    (st : Ranking) :
  test_count cfg <> 0 ->
  (forall r, In r results ->
     success_count r = 0 /\ exists host, server_of (route_url r) = Returned host) ->
  exists st', rank_loop cfg results st = Returned st'.
Proof.
  intros Hn. revert st; induction results as [|r results IH]; intros st H.
  - eexists. reflexivity.
  - destruct (H r (or_introl eq_refl)) as (Hz & host & Hh).
    cbn [rank_loop]. unfold rank_step, int_truediv. rewrite Hh, Hz.
    destruct (test_count cfg =? 0) eqn:E; [apply Z.eqb_eq in E; contradiction|].
    cbn [bind Z.ltb Z.compare]. apply IH. intros r' Hr'. apply H. now right.
Qed.

(** C6: a route without a success is never the best route, also when it is
    the only route; when no route has a success the report, which is
    produced all the same, has no best route and no recommendation. *)
Theorem zero_success_never_best (cfg : Settings)
    (results : list RouteResult) :
  (forall report best,
     generate_report cfg results = Returned (Some report) ->
     report_best report = Some best ->
     In best results /\ 0 < success_count best) /\
  (forall report,
     generate_report cfg results = Returned (Some report) ->
     (forall r, In r results -> success_count r = 0) ->
     report_best report = None /\ report_recommendation report = None) /\
  (results <> [] -> test_count cfg <> 0 ->
   (forall r, In r results ->
      success_count r = 0 /\
      exists host, server_of (route_url r) = Returned host) ->
   exists report,
     generate_report cfg results = Returned (Some report) /\
     report_best report = None /\ report_recommendation report = None).
Proof.
  assert (Hperm : Permutation (sorted_results results) results)
    by apply py_sorted_reverse_perm.
  split; [|split].
  - intros report best H Hbest. unfold generate_report in H.
    destruct results as [|r0 results0] eqn:Er; [discriminate|]. rewrite <- Er in *.
    destruct (rank_loop cfg (sorted_results results) _) as [st|] eqn:E;
      [|discriminate].
    cbn [bind] in H.
    assert (Hst : report_best report = best_route st).
    { destruct (best_route st) as [b|].
      - destruct (recommend cfg b); [|discriminate].
        cbn [bind] in H. now injection H as <-.
      - cbn [bind] in H. now injection H as <-. }
    rewrite Hst in Hbest.
    destruct (rank_loop_best _ _ _ E) as [Hsame|(b & Hb & Hin & Hpos)].
    + rewrite Hsame in Hbest. discriminate.
    + rewrite Hb in Hbest. injection Hbest as <-. split; [|exact Hpos].
      eapply Permutation_in; eauto.
  - intros report H Hzero. unfold generate_report in H.
    destruct results as [|r0 results0] eqn:Er; [discriminate|]. rewrite <- Er in *.
    destruct (rank_loop cfg (sorted_results results) _) as [st|] eqn:E;
      [|discriminate].
    cbn [bind] in H.
    apply rank_loop_no_success in E.
    + cbn [best_route] in E. rewrite E in H. cbn [bind] in H.
      injection H as <-. split; reflexivity.
    + intros r Hr. apply Hzero. eapply Permutation_in; eauto.
  - intros Hne Hn Hall. unfold generate_report.
    destruct results as [|r0 results0] eqn:Er; [contradiction|]. rewrite <- Er in *.
    destruct (rank_loop_returns cfg (sorted_results results)
                {| best_route := None; best_score := of_Z (-1); table := [] |} Hn)
      as [st E].
    { intros r Hr. apply Hall. eapply Permutation_in; eauto. }
    rewrite E. cbn [bind].
    apply rank_loop_no_success in E.
    + cbn [best_route] in E. rewrite E. cbn [bind]. eexists.
      split; [reflexivity|]. split; reflexivity.
    + intros r Hr. apply Hall. eapply Permutation_in; eauto.
Qed.

End RankerFacts.

Section DisplayOrder.

Context {N : PyNum} {ok : num -> Prop} {L : PyNumLaws N ok}.

Lemma key_lt_spec (a b : RouteResult) :
  rankable ok a -> rankable ok b ->
  key_lt a b =
  if success_count a =? success_count b
  then (avg_first_byte b <? avg_first_byte a)%num
  else success_count a <? success_count b.
Proof.
  intros [Hla Hoa] [Hlb Hob]. unfold key_lt, tuple_lt, sort_key.
  cbn [fst snd]. destruct (success_count a =? success_count b) eqn:E;
    [|reflexivity].
  apply Z.eqb_eq in E. unfold avg_first_byte in *.
  destruct (first_byte_times a) as [|ta tsa], (first_byte_times b) as [|tb tsb];
    cbn [length] in Hla, Hlb; try lia.
  - cbn [calculate_stats avg].
    rewrite (ltb_irrefl _ ok_zero).
    assert (H : (of_Z 999 =? of_Z 999)%num = true)
      by (apply eqb_eq; [apply ok_sentinel | apply ok_sentinel | reflexivity]).
    now rewrite H.
  - rewrite eqb_opp, ltb_opp by assumption.
    destruct (_ =? _)%num eqn:Eq; [|reflexivity].
    apply eqb_eq in Eq; auto. rewrite Eq. symmetry. now apply ltb_irrefl.
Qed.

Lemma key_lt_asym (a b : RouteResult) :
  rankable ok a -> rankable ok b -> key_lt a b = true -> key_lt b a = false.
Proof.
  intros Ha Hb. rewrite !key_lt_spec by assumption.
  destruct Ha as [_ Ha], Hb as [_ Hb].
  destruct (Z.eqb_spec (success_count a) (success_count b)) as [E|E].
  - rewrite <- E, Z.eqb_refl. now apply ltb_asym.
  - destruct (Z.eqb_spec (success_count b) (success_count a)); [congruence|].
    rewrite !Z.ltb_lt, Z.ltb_ge. lia.
Qed.

Lemma key_lt_negtrans (a b c : RouteResult) :
  rankable ok a -> rankable ok b -> rankable ok c ->
  key_lt b a = false -> key_lt c b = false -> key_lt c a = false.
Proof.
  intros Ha Hb Hc. rewrite !key_lt_spec by assumption.
  destruct Ha as [_ Ha], Hb as [_ Hb], Hc as [_ Hc].
  destruct (Z.eqb_spec (success_count b) (success_count a)) as [E1|E1];
    destruct (Z.eqb_spec (success_count c) (success_count b)) as [E2|E2];
    destruct (Z.eqb_spec (success_count c) (success_count a)) as [E3|E3];
    rewrite ?Z.ltb_ge; try lia; intros H1 H2.
  now apply ltb_negtrans with (avg_first_byte b).
Qed.

Lemma key_ge_shown_before (a b : RouteResult) :
  rankable ok a -> rankable ok b -> key_lt a b = false -> shown_before a b.
Proof.
  intros Ha Hb. rewrite key_lt_spec by assumption. unfold shown_before.
  destruct (Z.eqb_spec (success_count a) (success_count b)) as [E|E].
  - intro H. right. split; [exact E|].
    destruct Ha as [Hla _], Hb as [Hlb _]. unfold avg_first_byte in H.
    destruct (first_byte_times a) as [|ta tsa];
      [left; cbn [length] in Hla; lia|].
    destruct (first_byte_times b) as [|tb tsb];
      [cbn [length] in Hla, Hlb; lia|].
    right. exact H.
  - rewrite Z.ltb_ge. intro H. left. lia.
Qed.

(** Of two routes with as many successes, at least one, the one with the
    strictly lower mean first-byte duration has the larger key. *)
Lemma key_lt_faster (a b : RouteResult) :
  rankable ok a -> rankable ok b ->
  success_count a = success_count b -> 0 < success_count a ->
  (mean (first_byte_times a) <? mean (first_byte_times b))%num = true ->
  key_lt b a = true /\ key_lt a b = false.
Proof.
  intros Ha Hb E Hpos Hlt.
  assert (Hba : key_lt b a = true).
  { rewrite key_lt_spec by assumption.
    replace (success_count b =? success_count a) with true
      by (symmetry; apply Z.eqb_eq; congruence).
    destruct Ha as [Hla _], Hb as [Hlb _]. unfold avg_first_byte.
    destruct (first_byte_times a) as [|ta tsa]; [cbn [length] in Hla; lia|].
    destruct (first_byte_times b) as [|tb tsb]; [cbn [length] in Hlb; lia|].
    exact Hlt. }
  split; [exact Hba | now apply key_lt_asym].
Qed.

Lemma StronglySorted_weaken {A} (P : A -> Prop) (R R' : A -> A -> Prop)
    (l : list A) :
  (forall a b, P a -> P b -> R a b -> R' a b) ->
  Forall P l -> StronglySorted R l -> StronglySorted R' l.
Proof.
  intros Himp HP Hs. induction Hs as [|a l Hs IH Ha]; [constructor|].
  inversion HP as [|? ? Pa Pl]; subst. constructor; [now apply IH|].
  rewrite Forall_forall in *. intros b Hb. apply Himp; auto.
Qed.

(** C7: the display order is the list of the results, rearranged so that a
    route with more successes comes before one with fewer and, among
    routes with as many successes, one with a lower mean first-byte
    duration does not come after one with a higher; in particular a route
    with 10 successes is placed before one with 8, whatever their
    first-byte durations, and of two routes with as many successes the one
    whose first-byte durations have the strictly lower mean is placed
    first, in whichever order the two were recorded. *)
Theorem display_order (results : list RouteResult) :
  (Forall (rankable ok) results ->
     Permutation (sorted_results results) results /\
     StronglySorted shown_before (sorted_results results)) /\
  (forall a b : RouteResult,
     success_count a = 8 -> success_count b = 10 ->
     sorted_results [a; b] = [b; a] /\ sorted_results [b; a] = [b; a]) /\
  (forall fast slow : RouteResult,
     rankable ok fast -> rankable ok slow ->
     success_count fast = success_count slow -> 0 < success_count fast ->
     (mean (first_byte_times fast) <? mean (first_byte_times slow))%num
     = true ->
     sorted_results [fast; slow] = [fast; slow] /\
     sorted_results [slow; fast] = [fast; slow]).
Proof.
  split; [|split].
  - intro Hr. split; [apply py_sorted_reverse_perm|].
    assert (Hr' : Forall (rankable ok) (sorted_results results)).
    { eapply Permutation_Forall; [|exact Hr].
      apply Permutation_sym, py_sorted_reverse_perm. }
    apply (StronglySorted_weaken (P := rankable ok)
             (R := fun a b => key_lt a b = false));
      [apply key_ge_shown_before | exact Hr' |].
    apply py_sorted_reverse_sorted with (P := rankable ok);
      [apply key_lt_asym | apply key_lt_negtrans | exact Hr].
  - intros a b Ha Hb.
    unfold sorted_results, py_sorted_reverse, py_sorted.
    cbn [rev app fold_right insert_sorted].
    unfold tuple_lt, sort_key. cbn [fst snd]. rewrite Ha, Hb.
    split; reflexivity.
  - intros fast slow Hf Hs E Hpos Hlt.
    destruct (key_lt_faster Hf Hs E Hpos Hlt) as [Hsf Hfs].
    unfold key_lt in Hsf, Hfs.
    unfold sorted_results, py_sorted_reverse, py_sorted.
    cbn [rev app fold_right insert_sorted]. rewrite Hsf, Hfs.
    split; reflexivity.
Qed.

End DisplayOrder.

(* ------------------------------------------------------------------ *)
(** * The laws hold of the exact numbers *)

Module ExactLaws.

Import Exact.

Lemma qc_ltb_lt (a b : Qc) : qc_ltb a b = true <-> (a < b)%Qc.
Proof.
  unfold qc_ltb. rewrite Qclt_alt.
  destruct (a ?= b)%Qc; split; congruence.
Qed.

Lemma qc_ltb_ge (a b : Qc) : qc_ltb a b = false <-> (b <= a)%Qc.
Proof.
  split; intro H.
  - apply Qcnot_lt_le. intro Hlt. apply qc_ltb_lt in Hlt. congruence.
  - destruct (qc_ltb a b) eqn:E; [|reflexivity].
    apply qc_ltb_lt in E. now apply Qcle_not_lt in H.
Qed.

Lemma qc_eqb_eq (a b : Qc) : qc_eqb a b = true <-> a = b.
Proof.
  unfold qc_eqb. rewrite Qceq_alt.
  destruct (a ?= b)%Qc; split; congruence.
Qed.

Lemma qc_opp_le (a b : Qc) : (- a <= - b)%Qc <-> (b <= a)%Qc.
Proof.
  split; intro H.
  - apply Qcopp_le_compat in H. now rewrite !Qcopp_involutive in H.
  - now apply Qcopp_le_compat.
Qed.

Lemma qc_sum_perm (l l' : list Qc) :
  Permutation l l' -> qc_sum l = qc_sum l'.
Proof.
  induction 1 as [|x l l' _ IH|x y l|l l' l'' _ IH1 _ IH2]; simpl.
  - reflexivity.
  - now rewrite IH.
  - rewrite !Qcplus_assoc, (Qcplus_comm y x). reflexivity.
  - congruence.
Qed.

#[export] Instance exact_laws : PyNumLaws exact (fun _ => True).
Proof.
  split; try exact I.
  - intros a _. apply qc_ltb_ge, Qcle_refl.
  - intros a b c _ _ _ H1 H2. apply qc_ltb_lt in H1, H2.
    apply qc_ltb_lt. now apply Qclt_trans with b.
  - intros a b _ _ H1 H2. apply qc_ltb_ge in H1, H2.
    now apply Qcle_antisym.
  - intros a b _ _. apply qc_eqb_eq.
  - intros a b _ _. cbn [ltb opp exact].
    destruct (qc_ltb b a) eqn:E.
    + destruct (qc_ltb (- a) (- b)) eqn:E'; [reflexivity|].
      apply qc_ltb_ge in E'. apply -> (qc_opp_le b a) in E'.
      apply qc_ltb_lt in E. now apply Qcle_not_lt in E'.
    + apply qc_ltb_ge. apply qc_opp_le. now apply qc_ltb_ge.
  - intros a b _ _. cbn [eqb opp exact].
    destruct (qc_eqb a b) eqn:E.
    + apply qc_eqb_eq in E. subst. now apply qc_eqb_eq.
    + destruct (qc_eqb (- a) (- b)) eqn:E'; [|reflexivity].
      apply qc_eqb_eq in E'.
      rewrite <- (Qcopp_involutive a), E', Qcopp_involutive in E.
      rewrite <- E. symmetry. now apply qc_eqb_eq.
  - intros l l' _ H. cbn [mean num exact] in *. unfold qc_mean.
    now rewrite (qc_sum_perm H), (Permutation_length H).
Qed.

End ExactLaws.

(* ------------------------------------------------------------------ *)
(** * The laws hold of the ordinary floats *)

Module Binary64Laws.

Import Binary64.

(** On the floats that are not NaN, [<] is the lexicographic order of the
    ranks and [==] is the equality of the ranks. *)
Lemma SFltb_lex (x y : spec_float) :
  is_nan x = false -> is_nan y = false ->
  (SFltb x y = true <-> lexlt (rank x) (rank y)).
Proof.
  unfold SFltb, lexlt.
  destruct x as [sx|sx| |sx mx ex], y as [sy|sy| |sy my ey];
    try discriminate; intros _ _;
    try destruct sx; try destruct sy; cbn [SFcompare rank fst snd];
    try (split; [discriminate | lia]);
    try (split; [lia | reflexivity]).
  all: change (Pos.compare_cont Eq mx my) with (Pos.compare mx my).
  all: destruct (Z.compare_spec ex ey); destruct (Pos.compare_spec mx my);
    cbn [CompOpp]; split; intro; try discriminate; try reflexivity; try lia.
Qed.

Lemma SFeqb_lex (x y : spec_float) :
  is_nan x = false -> is_nan y = false ->
  (SFeqb x y = true <-> rank x = rank y).
Proof.
  unfold SFeqb.
  destruct x as [sx|sx| |sx mx ex], y as [sy|sy| |sy my ey];
    try discriminate; intros _ _;
    try destruct sx; try destruct sy; cbn [SFcompare rank fst snd];
    try (split; [discriminate | intro HH; injection HH; lia]);
    try (split; [discriminate | discriminate]);
    try (split; reflexivity).
  all: change (Pos.compare_cont Eq mx my) with (Pos.compare mx my).
  all: destruct (Z.compare_spec ex ey); destruct (Pos.compare_spec mx my);
    cbn [CompOpp]; split; intro HH; try discriminate; try reflexivity;
    try (injection HH; lia); try (f_equal; f_equal; lia).
Qed.

Lemma ordinary_not_nan (x : float) :
  ordinary x = true -> is_nan (Prim2SF x) = false.
Proof. unfold ordinary. now destruct (Prim2SF x). Qed.

Lemma opp_not_nan (x : float) :
  ordinary x = true -> is_nan (Prim2SF (- x)%float) = false.
Proof. rewrite opp_spec. unfold ordinary. now destruct (Prim2SF x). Qed.

Lemma rank_opp (x : float) :
  ordinary x = true ->
  rank (Prim2SF (- x)%float) =
  (- fst (rank (Prim2SF x)),
   (- fst (snd (rank (Prim2SF x))), - snd (snd (rank (Prim2SF x))))).
Proof.
  rewrite opp_spec. unfold ordinary.
  destruct (Prim2SF x) as [s|s| |s m e]; try discriminate;
    destruct s; intros _; cbn; repeat f_equal; lia.
Qed.

(** Two ordinary floats of the same rank are the same float. *)
Lemma rank_inj (x y : float) :
  ordinary x = true -> ordinary y = true ->
  rank (Prim2SF x) = rank (Prim2SF y) -> x = y.
Proof.
  unfold ordinary. intros Hx Hy H. apply Prim2SF_inj.
  destruct (Prim2SF x) as [sx|sx| |sx mx ex],
           (Prim2SF y) as [sy|sy| |sy my ey];
    try discriminate; try destruct sx; try destruct sy; try discriminate;
    cbn in H; try discriminate; try reflexivity;
    injection H; intros; f_equal; lia.
Qed.

Lemma ltb_lex (x y : float) :
  is_nan (Prim2SF x) = false -> is_nan (Prim2SF y) = false ->
  ((x <? y)%float = true <-> lexlt (rank (Prim2SF x)) (rank (Prim2SF y))).
Proof. rewrite ltb_spec. apply SFltb_lex. Qed.

Lemma eqb_lex (x y : float) :
  is_nan (Prim2SF x) = false -> is_nan (Prim2SF y) = false ->
  ((x =? y)%float = true <-> rank (Prim2SF x) = rank (Prim2SF y)).
Proof. rewrite eqb_spec. apply SFeqb_lex. Qed.

Ltac lex :=
  unfold lexlt in *;
  repeat match goal with
         | |- context [rank ?s] =>
             let a := fresh "a" in
             let b := fresh "b" in
             let c := fresh "c" in
             destruct (rank s) as [a [b c]]
         | H : context [rank ?s] |- _ =>
             let a := fresh "a" in
             let b := fresh "b" in
             let c := fresh "c" in
             destruct (rank s) as [a [b c]]
         end;
  cbn [fst snd] in *.

Lemma bool_eq_iff (b c : bool) : (b = true <-> c = true) -> b = c.
Proof. destruct b, c; intuition congruence. Qed.

Lemma exact_ratio_ordinary (x : float) :
  ordinary x = true -> exact_ratio x = Some (value x).
Proof. unfold ordinary, value, exact_ratio. now destruct (Prim2SF x). Qed.

(** Over ordinary floats [statistics._sum] is a sum of fractions. *)
Lemma exact_sum_ordinary (l : list float) (s : Q) :
  Forall (fun x => ordinary x = true) l ->
  fold_left sum_step l (s, None) = (fold_left Qplus (map value l) s, None).
Proof.
  intro H; revert s; induction H as [|x l Hx Hl IH]; intro s; [reflexivity|].
  cbn [fold_left map]. cbn [sum_step]. rewrite (exact_ratio_ordinary x Hx).
  apply IH.
Qed.

Lemma fold_Qplus_sum (l : list Q) (s : Q) :
  fold_left Qplus l s == s + fold_right Qplus (0 # 1) l.
Proof.
  revert s; induction l as [|q l IH]; intro s; cbn [fold_left fold_right].
  - ring.
  - rewrite IH. ring.
Qed.

Lemma Qsum_perm (l l' : list Q) :
  Permutation l l' ->
  fold_right Qplus (0 # 1) l == fold_right Qplus (0 # 1) l'.
Proof.
  induction 1 as [|x l l' _ IH|x y l|l l' l'' _ IH1 _ IH2]; cbn [fold_right].
  - reflexivity.
  - now rewrite IH.
  - ring.
  - now rewrite IH1.
Qed.

(** [statistics.mean] adds exactly and rounds once: the mean of floats
    does not depend on their order. *)
Lemma fmean_perm (l l' : list float) :
  Forall (fun x => ordinary x = true) l -> Permutation l l' ->
  fmean l = fmean l'.
Proof.
  intros Hok Hperm.
  assert (Hok' : Forall (fun x => ordinary x = true) l')
    by (eapply Permutation_Forall; eauto).
  unfold fmean, exact_sum.
  rewrite !exact_sum_ordinary by assumption.
  rewrite (Permutation_length Hperm). f_equal. apply Qred_complete.
  rewrite !fold_Qplus_sum.
  rewrite (@Qsum_perm _ _ (Permutation_map value Hperm)). reflexivity.
Qed.

#[export] Instance binary64_laws :
  PyNumLaws binary64 (fun x => ordinary x = true).
Proof.
  split.
  - vm_compute. reflexivity.
  - vm_compute. reflexivity.
  - intros a Ha. cbn [ltb binary64].
    destruct (a <? a)%float eqn:E; [|reflexivity].
    apply ltb_lex in E; auto using ordinary_not_nan. lex. lia.
  - intros a b c Ha Hb Hc. cbn [ltb binary64]. intros H1 H2.
    apply ltb_lex in H1, H2; auto using ordinary_not_nan.
    apply ltb_lex; auto using ordinary_not_nan. lex. lia.
  - intros a b Ha Hb. cbn [ltb binary64]. intros H1 H2.
    apply rank_inj; auto.
    assert (N1 : ~ lexlt (rank (Prim2SF a)) (rank (Prim2SF b))).
    { intro H. apply ltb_lex in H; auto using ordinary_not_nan. congruence. }
    assert (N2 : ~ lexlt (rank (Prim2SF b)) (rank (Prim2SF a))).
    { intro H. apply ltb_lex in H; auto using ordinary_not_nan. congruence. }
    lex. repeat f_equal; lia.
  - intros a b Ha Hb. cbn [eqb binary64].
    rewrite eqb_lex by auto using ordinary_not_nan.
    split; [now apply rank_inj | now intros ->].
  - intros a b Ha Hb. cbn [ltb opp binary64]. apply bool_eq_iff.
    rewrite !ltb_lex by auto using ordinary_not_nan, opp_not_nan.
    rewrite !rank_opp by assumption. lex. lia.
  - intros a b Ha Hb. cbn [eqb opp binary64]. apply bool_eq_iff.
    rewrite !eqb_lex by auto using ordinary_not_nan, opp_not_nan.
    rewrite !rank_opp by assumption. lex.
    split; intro H; injection H; intros; repeat f_equal; lia.
  - intros l l'. apply fmean_perm.
Qed.

End Binary64Laws.

(* ------------------------------------------------------------------ *)
(** * The examples of the specification, in both arithmetics *)

Section Worked.

Import Exact Binary64 ExactLaws Binary64Laws.

(** C8: the statistics of no durations are all zero; the statistics of
    100, 200, 300 are mean 200, min 100, max 300, median 200, in exact
    arithmetic and in binary64. *)
Theorem statistics_examples :
  (forall N : PyNum,
     calculate_stats (N := N) [] = mkStats (of_Z 0) (of_Z 0) (of_Z 0) (of_Z 0)) /\
  calculate_stats (N := exact) [of_Z 100; of_Z 200; of_Z 300]
  = mkStats (of_Z 200) (of_Z 100) (of_Z 300) (of_Z 200) /\
  calculate_stats (N := binary64) [of_Z 100; of_Z 200; of_Z 300]
  = mkStats (of_Z 200) (of_Z 100) (of_Z 300) (of_Z 200).
Proof.
  split; [reflexivity|]. split.
  - unfold calculate_stats. f_equal; apply Qc_is_canon; vm_compute; reflexivity.
  - unfold calculate_stats. f_equal; vm_compute; reflexivity.
Qed.

Lemma route_ten_exact :
  mean (first_byte_times (route_ten (N := exact))) = of_Q (5 # 100) /\
  performance_score (N := exact) ten_probes route_ten
  = Returned (of_Q (27 # 10)).
Proof.
  split.
  - apply Qc_is_canon. vm_compute. reflexivity.
  - rewrite performance_score_formula.
    + apply f_equal. apply Qc_is_canon. vm_compute. reflexivity.
    + discriminate.
    + vm_compute. discriminate.
    + vm_compute. reflexivity.
Qed.

Lemma route_ten_binary64 :
  mean (first_byte_times (route_ten (N := binary64))) = of_Q (5 # 100) /\
  performance_score (N := binary64) ten_probes route_ten
  = Returned 0x1.5999999999999p+1%float /\
  @of_Q binary64 (27 # 10) = 0x1.599999999999ap+1%float.
Proof. repeat split; vm_compute; reflexivity. Qed.

(** C5, as the code has it: the score of a route with a success is the
    formula, (successes / tests) * 0.7 + (1 / (mean first byte + 0.1)) *
    0.3, and it is this score that the loop compares with the best score;
    for 10 successes out of 10 and a mean first byte of 0.05 s the formula
    is 2.7 in exact arithmetic, and in binary64 the code computes
    2.6999999999999997, the double next below the double nearest to 2.7. *)
Theorem score_of_a_route :
  (forall (N : PyNum) (cfg : Settings) (r : RouteResult),
     0 < success_count r -> test_count cfg <> 0 ->
     first_byte_times r <> [] ->
     (mean (first_byte_times r) + of_Q (1 # 10) =? of_Z 0)%num = false ->
     let score := score_formula (success_count r) (test_count cfg)
                    (mean (first_byte_times r)) in
     performance_score cfg r = Returned score /\
     forall st st', rank_step cfg st r = Returned st' ->
       (best_route st', best_score st') =
       if (best_score st <? score)%num then (Some r, score)
       else (best_route st, best_score st)) /\
  (success_count (route_ten (N := exact)) = 10 /\
   mean (first_byte_times (route_ten (N := exact))) = of_Q (5 # 100) /\
   performance_score (N := exact) ten_probes route_ten
   = Returned (of_Q (27 # 10))) /\
  (success_count (route_ten (N := binary64)) = 10 /\
   mean (first_byte_times (route_ten (N := binary64))) = of_Q (5 # 100) /\
   performance_score (N := binary64) ten_probes route_ten
   = Returned 0x1.5999999999999p+1%float /\
   @of_Q binary64 (27 # 10) = 0x1.599999999999ap+1%float /\
   next_up 0x1.5999999999999p+1 = 0x1.599999999999ap+1%float).
Proof.
  split; [|split].
  - intros N cfg r Hpos Hn Hne Hz score.
    assert (Hs : performance_score cfg r = Returned score)
      by now apply performance_score_formula.
    split; [exact Hs|]. intros st st' Hstep.
    apply rank_step_best in Hstep.
    apply Z.ltb_lt in Hpos. rewrite Hpos in Hstep.
    destruct Hstep as (score' & Hs' & Hbest).
    rewrite Hs in Hs'. injection Hs' as <-. exact Hbest.
  - split; [reflexivity | exact route_ten_exact].
  - split; [reflexivity|].
    destruct route_ten_binary64 as (H1 & H2 & H3).
    split; [exact H1|]. split; [exact H2|]. split; [exact H3|].
    vm_compute. reflexivity.
Qed.

(** On the example of C5 the code does not return the double 2.7. *)
Lemma score_example_is_rounded :
  performance_score (N := binary64) ten_probes route_ten
  <> Returned (of_Q (27 # 10)).
Proof.
  destruct route_ten_binary64 as (_ & H & H'). rewrite H, H'.
  intro E.
  apply (f_equal (fun o => match o with
                           | Returned x => Prim2SF x
                           | Raised _ => S754_nan
                           end)) in E.
  vm_compute in E. discriminate.
Qed.

Lemma score_of_a_route_witness :
  performance_score (N := binary64) ten_probes route_ten
  = Returned (score_formula 10 10 (of_Q (5 # 100))).
Proof.
  apply (proj1 score_of_a_route binary64 ten_probes route_ten).
  - reflexivity.
  - discriminate.
  - vm_compute. discriminate.
  - vm_compute. reflexivity.
Defined.

(** C1: the results are not in the order of the configuration under the
    thread-based strategy.  Routes A and B, every probe served alike, B
    completing first: [run_tests_async] records A then B, [run_tests_sync]
    records B then A; the two routes score the same, so the report
    recommends A after the cooperative run and B after the thread-based
    one. *)
Theorem completion_order_reaches_the_report :
  map route_name
    (fst (run_tests_async (N := binary64) two_probes_async two_routes true
            calm []))
  = ["A"%string; "B"%string] /\
  map route_name
    (fst (run_tests_sync (N := binary64) two_probes two_routes true
            [1%nat] calm []))
  = ["B"%string; "A"%string] /\
  recommended_by (run (N := binary64) two_probes_async two_routes calm_world)
  = Some "A"%string /\
  recommended_by (run (N := binary64) two_probes two_routes calm_world)
  = Some "B"%string.
Proof. repeat split; vm_compute; reflexivity. Qed.

(** When the runner of route A raises, no result, failed or not, is
    recorded for A under the thread-based strategy; under the cooperative
    strategy nothing at all is recorded, the exception leaves the method and
    the run ends without a report. *)
Lemma faulted_route_has_no_result :
  (~ exists r,
      In r (fst (run_tests_sync (N := binary64) two_probes two_routes true
                   [] a_faults [])) /\
      route_name r = "A"%string /\
      fail_count r = test_count two_probes /\
      length (errors r) = 1%nat) /\
  run_tests_async (N := binary64) two_probes_async two_routes true a_faults []
  = ([], Some "boom"%string) /\
  run (N := binary64) two_probes_async two_routes a_faults_world
  = Raised "boom".
Proof.
  split; [|split; reflexivity].
  intros (r & Hin & Hname & _).
  apply (in_map route_name) in Hin. rewrite Hname in Hin.
  vm_compute in Hin. destruct Hin as [Hin|[]]. discriminate Hin.
Qed.

Lemma faulted_route_is_skipped_witness :
  let run := run_tests_sync (N := binary64) two_probes two_routes true
               [] a_faults [] in
  snd run = None /\ ~ In "A"%string (map route_name (fst run)).
Proof.
  exact (faulted_route_is_skipped two_probes two_routes a_faults []
           "A" info_a (or_introl eq_refl)).
Defined.

(** C3: the two strategies disagree when the delay between probes is
    negative.  Two probes, a fake prober whose every call succeeds,
    [delay_between_tests = -1]: [asyncio.sleep] returns at once and the
    cooperative runner counts two successes; [time.sleep] raises
    [ValueError] in [single_test], after the probe, and the thread-based
    runner counts two failures with that message. *)
Theorem negative_delay_splits_the_strategies :
  let a := runner_async (N := binary64) negative_delay "A" info_a
             always_served in
  let s := runner_sync (N := binary64) negative_delay "A" info_a []
             always_served in
  (success_count a = 2 /\ fail_count a = 0 /\ errors a = []) /\
  (success_count s = 0 /\ fail_count s = 2 /\
   errors s = ["sleep length must be non-negative"%string;
               "sleep length must be non-negative"%string]) /\
  success_count a <> success_count s /\
  calculate_stats (total_times a) <> calculate_stats (total_times s).
Proof.
  cbn zeta. split; [|split; [|split]].
  - repeat split; vm_compute; reflexivity.
  - repeat split; vm_compute; reflexivity.
  - vm_compute. discriminate.
  - intro H.
    apply (f_equal (fun st : @Stats binary64 => Prim2SF (@avg binary64 st)))
      in H.
    vm_compute in H. discriminate.
Qed.

Lemma count_invariant_witness :
  (let r := test_route_async (N := binary64) four_probes "A" info_a
              mixed_prober in
   success_count r + fail_count r = 4) /\
  (let r := test_route_sync (N := binary64) four_probes "A" info_a
              [3%nat; 0%nat] mixed_prober in
   success_count r + fail_count r = 4).
Proof.
  apply (count_invariant four_probes "A" info_a [3%nat; 0%nat] mixed_prober).
  discriminate.
Defined.

Lemma failed_probe_witness :
  total_time (test_single_request_async (N := binary64) (timed_out 7))
  = of_Z 0 /\
  first_byte_time (test_single_request_async (N := binary64) (timed_out 7))
  = of_Z 0.
Proof.
  apply (proj1 (failed_probe_has_zero_durations (timed_out 7))).
  reflexivity.
Defined.

Lemma zero_success_never_best_witness :
  exists report,
    generate_report (N := binary64) ten_probes [route_with "D" 0 (1 # 10)]
    = Returned (Some report) /\
    report_best report = None /\ report_recommendation report = None.
Proof.
  apply (proj2 (proj2 (zero_success_never_best ten_probes
                         [route_with "D" 0 (1 # 10)]))).
  - discriminate.
  - discriminate.
  - intros r [<-|[]]. split; [reflexivity|].
    eexists. vm_compute. reflexivity.
Defined.

Lemma display_order_witness :
  let results := [route_with (N := binary64) "A" 8 (3 # 10);
                  route_with "B" 10 (5 # 10);
                  route_with "C" 10 (4 # 10);
                  route_with "D" 0 (1 # 10)] in
  (Permutation (sorted_results results) results /\
   StronglySorted shown_before (sorted_results results)) /\
  (sorted_results [route_with (N := binary64) "A" 8 (3 # 10);
                   route_with "B" 10 (5 # 10)]
   = [route_with "B" 10 (5 # 10); route_with "A" 8 (3 # 10)] /\
   sorted_results [route_with (N := binary64) "B" 10 (5 # 10);
                   route_with "A" 8 (3 # 10)]
   = [route_with "B" 10 (5 # 10); route_with "A" 8 (3 # 10)]) /\
  (sorted_results [route_with (N := binary64) "C" 10 (4 # 10);
                   route_with "B" 10 (5 # 10)]
   = [route_with "C" 10 (4 # 10); route_with "B" 10 (5 # 10)] /\
   sorted_results [route_with (N := binary64) "B" 10 (5 # 10);
                   route_with "C" 10 (4 # 10)]
   = [route_with "C" 10 (4 # 10); route_with "B" 10 (5 # 10)]).
Proof.
  split; [|split].
  - apply (proj1 (display_order (N := binary64)
                    (ok := fun x : float => ordinary x = true) _)).
    repeat (apply Forall_cons; [split; vm_compute; reflexivity|]).
    apply Forall_nil.
  - apply (proj1 (proj2 (display_order (N := binary64)
                           (ok := fun x : float => ordinary x = true) []))
             (route_with "A" 8 (3 # 10)) (route_with "B" 10 (5 # 10)));
      vm_compute; reflexivity.
  - apply (proj2 (proj2 (display_order (N := binary64)
                           (ok := fun x : float => ordinary x = true) []))
             (route_with "C" 10 (4 # 10)) (route_with "B" 10 (5 # 10)));
      try (split; vm_compute; reflexivity); vm_compute; reflexivity.
Defined.

End Worked.

(* ------------------------------------------------------------------ *)
(** * Further properties: the prober *)

Section ProberFacts.

Context {N : PyNum}.

(** What the scan for the first byte finds, in terms of the whole body. *)
Lemma await_first_chunk_body (b : body) :
  match await_first_chunk b with
  | FirstByte rest => payload b <> [] /\ drain b = drain rest
  | NoData => payload b = [] /\ drain b = None
  | ReadFailed e => payload b = [] /\ drain b = Some e
  end.
Proof.
  induction b as [|e|c rest IH]; cbn [await_first_chunk].
  - split; reflexivity.
  - split; reflexivity.
  - destruct c as [|byte c]; cbn [payload drain app].
    + exact IH.
    + split; [discriminate | reflexivity].
Qed.

Lemma probe_cases (x : Exchange) :
  probe_case x (test_single_request_async x) (test_single_request_sync x).
Proof.
  unfold probe_case, test_single_request_async, test_single_request_sync.
  destruct (posted x) as [e|response]; [split; reflexivity|].
  destruct (status response =? 200); cbn [negb]; [|split; reflexivity].
  pose proof (await_first_chunk_body (content response)) as Hb.
  destruct (await_first_chunk (content response)) as [rest| |e].
  - destruct Hb as [Hp Hd]. rewrite Hd.
    destruct (drain rest) as [e|]; [split; reflexivity|].
    destruct (payload (content response)); [contradiction|].
    split; reflexivity.
  - destruct Hb as [Hp Hd]. rewrite Hd, Hp. split; reflexivity.
  - destruct Hb as [Hp Hd]. rewrite Hd. split; reflexivity.
Qed.

(** X1: the outcome of a probe, under either strategy, is decided in this
    order: an exception of [post]; a status other than 200, whatever the
    body; an exception while the body is read, even after bytes arrived; a
    body without a byte; otherwise the probe succeeds with the two measured
    durations.  So a probe succeeds exactly when the status is 200 and the
    body streams to its end with at least one byte. *)
Theorem probe_outcome_classified (x : Exchange) :
  let a := test_single_request_async x in
  let s := test_single_request_sync x in
  probe_case x a s /\
  (success a = true <->
   exists response,
     posted x = inr response /\ status response = 200 /\
     drain (content response) = None /\ payload (content response) <> []).
Proof.
  cbn zeta. pose proof (probe_cases x) as Hc. split; [exact Hc|].
  unfold probe_case in Hc.
  destruct (posted x) as [e|response].
  - destruct Hc as [-> _]. split.
    + destruct e; discriminate.
    + intros (response & H & _). discriminate.
  - destruct (Z.eqb_spec (status response) 200) as [Hs|Hs].
    + destruct (drain (content response)) as [e|] eqn:Ed.
      * destruct Hc as [-> _]. split.
        -- destruct e; discriminate.
        -- intros (r' & H & _ & Hd & _). injection H as <-.
           rewrite Ed in Hd. discriminate.
      * destruct (payload (content response)) as [|byte bytes] eqn:Epl;
          destruct Hc as [-> _]; split.
        -- discriminate.
        -- intros (r' & H & _ & _ & Hne). injection H as <-.
           rewrite Epl in Hne. contradiction.
        -- intros _. exists response. rewrite Ed, Epl.
           repeat split; auto; discriminate.
        -- reflexivity.
    + destruct Hc as [-> _]. split.
      * discriminate.
      * intros (r' & H & Hs' & _). injection H as <-. contradiction.
Qed.

End ProberFacts.

(* ------------------------------------------------------------------ *)
(** * Further properties: the route runners *)

Section RunnerMore.

Context {N : PyNum}.

Lemma thread_ids_perm (outs outs' : list (Outcome TestResult)) :
  Permutation outs outs' -> Permutation (thread_ids outs) (thread_ids outs').
Proof. apply Permutation_flat_map. Qed.

Lemma thread_ids_length (outs : list (Outcome TestResult)) :
  (length (thread_ids outs) <= length outs)%nat.
Proof.
  induction outs as [|[r|msg] outs IH]; simpl; lia.
Qed.

(** The set of threads after the loop: those before, and those of the
    probes that returned. *)
Lemma fold_tally_threads (outs : list (Outcome TestResult)) (r : RouteResult) :
  NoDup (concurrent_threads r) ->
  let r' := fold_left tally_async outs r in
  NoDup (concurrent_threads r') /\
  forall t, In t (concurrent_threads r') <->
            In t (concurrent_threads r) \/ In t (thread_ids outs).
Proof.
  revert r; induction outs as [|o outs IH]; intros r Hnd; cbn zeta.
  - simpl. split; [exact Hnd | intro t; tauto].
  - cbn [fold_left].
    assert (Hstep : NoDup (concurrent_threads (tally_async r o)) /\
                    forall t, In t (concurrent_threads (tally_async r o)) <->
                              In t (concurrent_threads r) \/
                              In t (thread_ids [o])).
    { destruct o as [res|msg]; cbn [tally_async thread_ids flat_map app].
      - assert (forall t, In t (set_add Z.eq_dec (thread_id res)
                                  (concurrent_threads r)) <->
                          In t (concurrent_threads r) \/
                          In t [thread_id res]).
        { intro t. rewrite set_add_iff. simpl. intuition. }
        destruct (success res); cbn [concurrent_threads];
          (split; [now apply set_add_nodup | assumption]).
      - cbn [concurrent_threads]. split; [exact Hnd | intro t; simpl; tauto]. }
    destruct Hstep as [Hnd' Hin'].
    destruct (IH _ Hnd') as [Hnd'' Hin'']. split; [exact Hnd''|].
    intro t. rewrite Hin'', Hin'.
    change (o :: outs) with ([o] ++ outs).
    unfold thread_ids at 3. rewrite flat_map_app. fold (thread_ids [o]).
    fold (thread_ids outs). rewrite in_app_iff. tauto.
Qed.

Lemma range_empty (n : Z) : n <= 0 -> range n = [].
Proof.
  intro H. unfold range. replace (Z.to_nat n) with 0%nat by lia. reflexivity.
Qed.

(** X3: what a runner returns.  The result carries the name, the URL and the
    description of its route; its two sequences of durations are those of
    the probes that succeeded and its error messages those of the probes
    that failed or raised, in the order of dispatch under the cooperative
    strategy and in the order of completion under the thread-based one. *)
Theorem route_result_described (cfg : Settings) (rn : string)
    (ri : RouteInfo) (picks : list nat) (probe : nat -> Outcome TestResult) :
  let outs := map probe (range (test_count cfg)) in
  let built_from (r : RouteResult) (seen : list (Outcome TestResult)) :=
    route_name r = rn /\ route_url r = url ri /\
    route_description r = description ri /\
    total_times r = map total_time (successes seen) /\
    first_byte_times r = map first_byte_time (successes seen) /\
    errors r = failures seen in
  built_from (test_route_async cfg rn ri probe) outs /\
  built_from (test_route_sync cfg rn ri picks probe)
    (as_completed picks outs).
Proof.
  cbn zeta. unfold test_route_async, test_route_sync.
  change (@tally_sync N) with (@tally_async N). split.
  - destruct (fold_tally (map probe (range (test_count cfg)))
                (new_results rn ri)) as (H1 & H2 & H3 & _ & _ & H6 & H7 & H8).
    rewrite H1, H2, H3, H6, H7, H8. repeat split.
  - destruct (fold_tally
                (as_completed picks (map probe (range (test_count cfg))))
                (new_results rn ri)) as (H1 & H2 & H3 & _ & _ & H6 & H7 & H8).
    rewrite H1, H2, H3, H6, H7, H8. repeat split.
Qed.

(** X4: the observed concurrency.  The set of threads of a result has no
    duplicate, holds exactly the threads of the probes that returned a
    result (a probe that raised contributes none), is the same set under
    both strategies whatever the order of completion, and has at most
    test_count elements. *)
Theorem observed_threads (cfg : Settings) (rn : string) (ri : RouteInfo)
    (picks : list nat) (probe : nat -> Outcome TestResult) :
  let observed (r : RouteResult) :=
    NoDup (concurrent_threads r) /\
    (forall t, In t (concurrent_threads r) <->
               exists k res, (k < Z.to_nat (test_count cfg))%nat /\
                             probe k = Returned res /\ thread_id res = t) /\
    (length (concurrent_threads r) <= Z.to_nat (test_count cfg))%nat in
  observed (test_route_async cfg rn ri probe) /\
  observed (test_route_sync cfg rn ri picks probe).
Proof.
  cbn zeta. set (outs := map probe (range (test_count cfg))).
  assert (Hids : forall t, In t (thread_ids outs) <->
            exists k res, (k < Z.to_nat (test_count cfg))%nat /\
                          probe k = Returned res /\ thread_id res = t).
  { intro t. unfold thread_ids, outs. rewrite in_flat_map. split.
    - intros (o & Ho & Ht). apply in_map_iff in Ho.
      destruct Ho as (k & <- & Hk). apply in_seq in Hk.
      destruct (probe k) as [res|msg] eqn:E; [|contradiction].
      destruct Ht as [<-|[]]. exists k, res. repeat split; auto. lia.
    - intros (k & res & Hk & Hp & <-). exists (Returned res). split.
      + rewrite <- Hp. apply in_map. apply in_seq. lia.
      + now left. }
  assert (Hobs : forall seen r,
            Permutation seen outs ->
            r = fold_left tally_async seen (new_results rn ri) ->
            NoDup (concurrent_threads r) /\
            (forall t, In t (concurrent_threads r) <->
               exists k res, (k < Z.to_nat (test_count cfg))%nat /\
                             probe k = Returned res /\ thread_id res = t) /\
            (length (concurrent_threads r) <= Z.to_nat (test_count cfg))%nat).
  { intros seen r Hperm ->.
    destruct (fold_tally_threads seen (new_results rn ri)) as [Hnd Hin];
      [constructor|].
    assert (Hin' : forall t,
              In t (concurrent_threads
                      (fold_left tally_async seen (new_results rn ri))) <->
              In t (thread_ids outs)).
    { intro t. rewrite Hin. cbn [new_results concurrent_threads empty_set].
      split.
      - intros [[]|H]. eapply Permutation_in; [|exact H].
        now apply thread_ids_perm.
      - intro H. right. eapply Permutation_in; [|exact H].
        now apply thread_ids_perm, Permutation_sym. }
    split; [exact Hnd|]. split.
    - intro t. rewrite Hin'. apply Hids.
    - apply Nat.le_trans with (length (thread_ids outs)).
      + apply NoDup_incl_length; [exact Hnd|]. intros t Ht. now apply Hin'.
      + etransitivity; [apply thread_ids_length|].
        unfold outs. rewrite length_map, range_length. lia. }
  split.
  - apply (Hobs outs); [reflexivity | reflexivity].
  - apply (Hobs (as_completed picks outs));
      [apply as_completed_perm | reflexivity].
Qed.

(** X5: with a test count of zero or less no probe is sent: both runners
    return the empty result of the route, so success_count + fail_count is
    0, not test_count, when the count is negative. *)
Theorem no_probes_when_count_not_positive (cfg : Settings) (rn : string)
    (ri : RouteInfo) (picks : list nat) (probe : nat -> Outcome TestResult) :
  test_count cfg <= 0 ->
  test_route_async cfg rn ri probe = new_results rn ri /\
  test_route_sync cfg rn ri picks probe = new_results rn ri.
Proof.
  intro H. unfold test_route_async, test_route_sync.
  rewrite (range_empty H). cbn [map]. rewrite as_completed_nil.
  split; reflexivity.
Qed.

End RunnerMore.


(* ------------------------------------------------------------------ *)
(** * Further properties: the schedulers *)

Section SchedulerMore.

Context {N : PyNum}.

Lemma gather_raised_in {A} (tasks : list (Outcome A)) (msg : string) :
  gather tasks = Raised msg -> In (Raised msg) tasks.
Proof.
  induction tasks as [|[a|m] tasks IH]; simpl; intro H.
  - discriminate.
  - destruct (gather tasks); [discriminate|]. injection H as <-.
    right. now apply IH.
  - injection H as <-. now left.
Qed.

Lemma publish_async_grows cfg route_results self_results :
  exists new,
    fst (publish_async cfg route_results self_results) = self_results ++ new.
Proof.
  revert self_results; induction route_results as [|r rs IH];
    intro self_results; simpl.
  - exists []. now rewrite app_nil_r.
  - destruct (route_line cfg r).
    + destruct (IH (self_results ++ [r])) as [new Hnew].
      exists (r :: new). rewrite Hnew, <- app_assoc. reflexivity.
    + exists [r]. reflexivity.
Qed.

Lemma filter_perm {A} (f : A -> bool) (l l' : list A) :
  Permutation l l' -> Permutation (filter f l) (filter f l').
Proof.
  induction 1 as [|x l l' _ IH|x y l|l l' l'' _ IH1 _ IH2]; simpl.
  - constructor.
  - destruct (f x); [now constructor | assumption].
  - destruct (f x), (f y); try reflexivity. apply perm_swap.
  - now transitivity (filter f l').
Qed.

Lemma gather_routes_fault cfg env (routes : list (string * RouteInfo)) :
  forallb (runs env) routes = false ->
  exists route msg,
    In route routes /\ fault (env (fst route)) = Some msg /\
    gather (map (test_with_semaphore cfg env) routes) = Raised msg.
Proof.
  intro H.
  destruct (gather (map (test_with_semaphore cfg env) routes))
    as [rr|msg] eqn:G.
  - apply gather_inv in G.
    assert (Hall : forallb (runs env) routes = true).
    { apply forallb_forall. intros route Hin.
      apply (in_map (test_with_semaphore cfg env)) in Hin.
      rewrite G in Hin. apply in_map_iff in Hin.
      destruct Hin as (r & Hr & _). rewrite test_with_semaphore_runs in Hr.
      destruct (runs env route); [reflexivity | discriminate]. }
    congruence.
  - apply gather_raised_in in G. apply in_map_iff in G.
    destruct G as ([rn ri] & Hr & Hin). exists (rn, ri), msg.
    cbn [test_with_semaphore fst] in *.
    destruct (fault (env rn)) as [m|]; [|discriminate].
    injection Hr as ->. auto.
Qed.

(** X7: under the cooperative strategy one runner that raises aborts the
    whole run: whatever the other routes did, [run_tests_async] raises the
    exception of a runner and leaves [self.results] as it was. *)
Theorem async_fault_aborts (cfg : Settings)
    (routes : list (string * RouteInfo)) (env : string -> RouteEnv)
    (self_results : list RouteResult) :
  forallb (runs env) routes = false ->
  exists route msg,
    In route routes /\ fault (env (fst route)) = Some msg /\
    run_tests_async cfg routes true env self_results
    = (self_results, Some msg).
Proof.
  intro H. destruct (gather_routes_fault cfg env routes H)
    as (route & msg & Hin & Hf & G).
  exists route, msg. split; [exact Hin|]. split; [exact Hf|].
  unfold run_tests_async. destruct routes as [|route0 routes0];
    [destruct Hin|].
  cbn [negb]. rewrite G. reflexivity.
Qed.

(** X8: a test count of zero.  No runner sends a probe; under the
    cooperative strategy the division of the success rate raises on the
    first route, whose empty result is the only one recorded; under the
    thread-based strategy the same exception is caught route by route and
    the empty result of every route is recorded. *)
Theorem zero_test_count_runs (cfg : Settings) (route : string * RouteInfo)
    (routes : list (string * RouteInfo)) (env : string -> RouteEnv)
    (order : list nat) (self_results : list RouteResult) :
  test_count cfg = 0 ->
  forallb (runs env) (route :: routes) = true ->
  run_tests_async cfg (route :: routes) true env self_results
  = (self_results ++ [new_results (fst route) (snd route)],
     Some "division by zero"%string) /\
  run_tests_sync cfg (route :: routes) true order env self_results
  = (self_results ++
       map (fun r => new_results (fst r) (snd r))
         (as_completed order (route :: routes)),
     None).
Proof.
  intros Hz Hruns.
  assert (Ha : forall r, route_async cfg env r = new_results (fst r) (snd r)).
  { intro r. unfold route_async, test_route_async.
    rewrite Hz. reflexivity. }
  assert (Hs : forall r, route_sync cfg env r = new_results (fst r) (snd r)).
  { intro r. unfold route_sync, test_route_sync.
    rewrite Hz. cbn [range Z.to_nat seq map]. now rewrite as_completed_nil. }
  split.
  - unfold run_tests_async. cbn [negb].
    rewrite gather_routes_no_fault by exact Hruns.
    cbn [map publish_async]. rewrite Ha.
    unfold route_line, int_truediv. rewrite Hz. reflexivity.
  - rewrite run_tests_sync_results. f_equal. f_equal.
    assert (Hf : filter (runs env) (as_completed order (route :: routes))
                 = as_completed order (route :: routes)).
    { apply forallb_filter_id. apply forallb_forall. intros r Hr.
      rewrite forallb_forall in Hruns. apply Hruns.
      eapply Permutation_in; [apply as_completed_perm | exact Hr]. }
    rewrite Hf. apply map_ext. exact Hs.
Qed.

(** X9: a run only appends to [self.results]: what was there stays, in
    place, whether the run completes, is declined, has no route, or raises;
    and a run that is declined or has no route appends nothing and raises
    nothing. *)
Theorem results_only_grow (cfg : Settings)
    (routes : list (string * RouteInfo)) (confirmed : bool)
    (env : string -> RouteEnv) (order : list nat)
    (self_results : list RouteResult) :
  let a := run_tests_async cfg routes confirmed env self_results in
  let s := run_tests_sync cfg routes confirmed order env self_results in
  (exists new, fst a = self_results ++ new) /\
  (exists new, fst s = self_results ++ new) /\
  (confirmed = false \/ routes = [] ->
   a = (self_results, None) /\ s = (self_results, None)).
Proof.
  cbn zeta. split; [|split].
  - unfold run_tests_async. destruct routes as [|route routes].
    + exists []. now rewrite app_nil_r.
    + destruct confirmed; cbn [negb].
      * destruct (gather _) as [rr|msg].
        -- apply publish_async_grows.
        -- exists []. now rewrite app_nil_r.
      * exists []. now rewrite app_nil_r.
  - destruct confirmed.
    + rewrite run_tests_sync_results. eexists. reflexivity.
    + exists []. unfold run_tests_sync.
      destruct routes; now rewrite app_nil_r.
  - unfold run_tests_async, run_tests_sync. intros [->| ->].
    + destruct routes; split; reflexivity.
    + split; reflexivity.
Qed.

(** X10: under the thread-based strategy the order of completion decides
    the order of the results and nothing else: the results are those of the
    routes whose runner returned, each once; if no runner raises, their
    names are the names of the configuration, rearranged. *)
Theorem sync_records_every_route (cfg : Settings)
    (routes : list (string * RouteInfo)) (env : string -> RouteEnv)
    (order : list nat) :
  let rs := fst (run_tests_sync cfg routes true order env []) in
  Permutation rs (map (route_sync cfg env) (filter (runs env) routes)) /\
  (forallb (runs env) routes = true ->
   Permutation (map route_name rs) (map fst routes) /\
   length rs = length routes).
Proof.
  cbn zeta. rewrite run_tests_sync_results. cbn [fst app].
  assert (HP : Permutation
                 (map (route_sync cfg env)
                    (filter (runs env) (as_completed order routes)))
                 (map (route_sync cfg env) (filter (runs env) routes))).
  { apply Permutation_map, filter_perm, as_completed_perm. }
  split; [exact HP|]. intro Hruns.
  rewrite (forallb_filter_id _ _ Hruns) in HP.
  split.
  - rewrite (Permutation_map route_name HP), map_map.
    erewrite map_ext; [reflexivity|]. intro r. apply route_sync_name.
  - rewrite (Permutation_length HP). apply length_map.
Qed.

End SchedulerMore.

(* ------------------------------------------------------------------ *)
(** * Further properties: the report *)

Section ReportFacts.

Context {N : PyNum}.

Lemma rank_step_row (cfg : Settings) (st st' : Ranking) (r : RouteResult) :
  rank_step cfg st r = Returned st' ->
  exists row,
    table st' = table st ++ [row] /\ row_result row = r /\
    server_of (route_url r) = Returned (row_server row) /\
    int_truediv (success_count r) (test_count cfg)
    = Returned (ratio (success_count r) (test_count cfg)) /\
    row_success_rate row
    = (ratio (success_count r) (test_count cfg) * of_Z 100)%num.
Proof.
  unfold rank_step.
  destruct (server_of (route_url r)) as [host|]; [|discriminate].
  cbn [bind]. unfold int_truediv.
  destruct (test_count cfg =? 0); [discriminate|]. cbn [bind].
  destruct (0 <? success_count r).
  - destruct (performance_score cfg r); [|discriminate]. cbn [bind].
    intro H. injection H as <-. eexists. cbn [table]. repeat split.
  - cbn [bind]. intro H. injection H as <-. eexists. cbn [table].
    repeat split.
Qed.

Lemma rank_loop_table (cfg : Settings) (results : list RouteResult)
    (st st' : Ranking) :
  rank_loop cfg results st = Returned st' ->
  exists rows,
    table st' = table st ++ rows /\ map row_result rows = results /\
    forall row, In row rows ->
      server_of (route_url (row_result row)) = Returned (row_server row) /\
      row_success_rate row
      = (ratio (success_count (row_result row)) (test_count cfg)
         * of_Z 100)%num.
Proof.
  revert st; induction results as [|r results IH]; intros st H; simpl in H.
  - injection H as <-. exists []. rewrite app_nil_r.
    split; [reflexivity|]. split; [reflexivity|]. intros row [].
  - destruct (rank_step cfg st r) as [st1|] eqn:E; [|discriminate].
    cbn [bind] in H. apply rank_step_row in E.
    destruct E as (row & Ht & Hr & Hs & _ & Hrate).
    destruct (IH _ H) as (rows & Ht' & Hrs & Hrows).
    exists (row :: rows). rewrite Ht', Ht, <- app_assoc.
    split; [reflexivity|]. split; [cbn [map]; now rewrite Hr, Hrs|].
    intros row' [<-|Hin]; [|now apply Hrows].
    rewrite Hr. split; assumption.
Qed.

Lemma rank_step_returns (cfg : Settings) (st : Ranking) (r : RouteResult) :
  test_count cfg <> 0 -> reportable r ->
  exists st', rank_step cfg st r = Returned st'.
Proof.
  intros Hn [(host & Hh) Hr]. unfold rank_step, performance_score,
    int_truediv, truediv.
  rewrite Hh. cbn [bind].
  destruct (test_count cfg =? 0) eqn:E; [apply Z.eqb_eq in E; contradiction|].
  cbn [bind]. destruct (0 <? success_count r) eqn:Epos.
  - apply Z.ltb_lt in Epos. destruct (Hr Epos) as (Hf & _ & Hz).
    destruct (first_byte_times r) as [|t ts]; [contradiction|].
    rewrite Hz. cbn [bind]. eexists. reflexivity.
  - cbn [bind]. eexists. reflexivity.
Qed.

Lemma rank_loop_reportable (cfg : Settings) (results : list RouteResult)
    (st : Ranking) :
  test_count cfg <> 0 -> Forall reportable results ->
  exists st', rank_loop cfg results st = Returned st'.
Proof.
  intros Hn H; revert st; induction H as [|r results Hr _ IH]; intro st.
  - eexists. reflexivity.
  - cbn [rank_loop]. destruct (@rank_step_returns cfg st r Hn Hr) as [st1 ->].
    cbn [bind]. apply IH.
Qed.

Lemma recommend_returns (cfg : Settings) (best : RouteResult) :
  test_count cfg <> 0 -> 0 < success_count best -> reportable best ->
  exists r, recommend cfg best = Returned r.
Proof.
  intros Hn Hpos [_ Hr]. destruct (Hr Hpos) as (Hf & Ht & _).
  unfold recommend, statistics_mean, int_truediv.
  destruct (first_byte_times best); [contradiction|].
  destruct (total_times best); [contradiction|]. cbn [bind].
  destruct (test_count cfg =? 0) eqn:E; [apply Z.eqb_eq in E; contradiction|].
  cbn [bind]. eexists. reflexivity.
Qed.

(** A report is produced from results that are reportable. *)
Lemma generate_report_returns (cfg : Settings) (results : list RouteResult) :
  results <> [] -> test_count cfg <> 0 -> Forall reportable results ->
  exists report, generate_report cfg results = Returned (Some report).
Proof.
  intros Hne Hn Hall. unfold generate_report.
  destruct results as [|r0 rs0] eqn:Er; [contradiction|]. rewrite <- Er in *.
  assert (Hperm : Permutation (sorted_results results) results)
    by apply py_sorted_reverse_perm.
  assert (Hall' : Forall reportable (sorted_results results))
    by (eapply Permutation_Forall; [apply Permutation_sym|]; eauto).
  destruct (@rank_loop_reportable cfg (sorted_results results)
              {| best_route := None; best_score := of_Z (-1); table := [] |}
              Hn Hall') as [st E].
  rewrite E. cbn [bind].
  destruct (rank_loop_best _ _ _ E) as [Hsame|(b & Hb & Hin & Hpos)].
  - cbn [best_route] in Hsame. rewrite Hsame. cbn [bind].
    eexists. reflexivity.
  - rewrite Hb. rewrite Forall_forall in Hall'.
    destruct (@recommend_returns cfg b Hn Hpos (Hall' _ Hin)) as [rec ->].
    cbn [bind]. eexists. reflexivity.
Qed.

Lemma generate_report_table (cfg : Settings) (results : list RouteResult)
    (report : Report) :
  generate_report cfg results = Returned (Some report) ->
  map row_result (report_table report) = sorted_results results /\
  forall row, In row (report_table report) ->
    server_of (route_url (row_result row)) = Returned (row_server row) /\
    row_success_rate row
    = (ratio (success_count (row_result row)) (test_count cfg)
       * of_Z 100)%num.
Proof.
  unfold generate_report. destruct results as [|r0 rs0] eqn:Er; [discriminate|].
  rewrite <- Er in *.
  destruct (rank_loop cfg (sorted_results results) _) as [st|] eqn:E;
    [|discriminate].
  cbn [bind]. apply rank_loop_table in E.
  destruct E as (rows & Ht & Hrs & Hrows). cbn [table app] in Ht.
  intro H.
  assert (Htab : report_table report = rows).
  { destruct (best_route st) as [b|].
    - destruct (recommend cfg b); [|discriminate]. cbn [bind] in H.
      injection H as <-. exact Ht.
    - cbn [bind] in H. injection H as <-. exact Ht. }
  rewrite Htab. split; assumption.
Qed.

(** X11: the table of the report.  From results that are reportable (URLs
    with "//", durations recorded for the routes that have a success, no
    mean first-byte duration of -0.1) and a test count other than zero, the
    report is produced; the table of any report that is produced has one row
    for each result, in the display order, showing the host of its URL and
    success_count / test_count * 100 as its success rate. *)
Theorem report_table_is_display_order (cfg : Settings)
    (results : list RouteResult) :
  (results <> [] -> test_count cfg <> 0 -> Forall reportable results ->
   exists report, generate_report cfg results = Returned (Some report)) /\
  (forall report,
     generate_report cfg results = Returned (Some report) ->
     map row_result (report_table report) = sorted_results results /\
     length (report_table report) = length results /\
     forall row, In row (report_table report) ->
       server_of (route_url (row_result row)) = Returned (row_server row) /\
       row_success_rate row
       = (ratio (success_count (row_result row)) (test_count cfg)
          * of_Z 100)%num).
Proof.
  split; [apply generate_report_returns|].
  intros report H. destruct (generate_report_table _ _ H) as [Ht Hrows].
  split; [exact Ht|]. split; [|exact Hrows].
  rewrite <- (length_map row_result), Ht.
  apply Permutation_length, py_sorted_reverse_perm.
Qed.

(** X12: the recommendation.  A report has a recommendation exactly when it
    has a best route; the recommendation names that route and shows the
    means of its two sequences of durations, times 1000, and its success
    rate; a best route has durations recorded. *)
Theorem recommendation_matches_best (cfg : Settings)
    (results : list RouteResult) (report : Report) :
  generate_report cfg results = Returned (Some report) ->
  match report_best report with
  | Some best =>
      first_byte_times best <> [] /\ total_times best <> [] /\
      report_recommendation report
      = Some {| recommended := route_name best;
                avg_first_byte_ms :=
                  (mean (first_byte_times best) * of_Z 1000)%num;
                avg_total_ms := (mean (total_times best) * of_Z 1000)%num;
                success_rate_percent :=
                  (ratio (success_count best) (test_count cfg)
                   * of_Z 100)%num |}
  | None => report_recommendation report = None
  end.
Proof.
  unfold generate_report. destruct results as [|r0 rs0] eqn:Er; [discriminate|].
  rewrite <- Er in *.
  destruct (rank_loop cfg (sorted_results results) _) as [st|]; [|discriminate].
  cbn [bind]. destruct (best_route st) as [b|].
  - unfold recommend, statistics_mean, int_truediv.
    destruct (first_byte_times b) as [|t ts] eqn:Ef; [discriminate|].
    destruct (total_times b) as [|u us] eqn:Et; [discriminate|].
    cbn [bind]. destruct (test_count cfg =? 0); [discriminate|]. cbn [bind].
    intro H. injection H as <-. cbn [report_best report_recommendation].
    rewrite Ef, Et. repeat split; discriminate.
  - cbn [bind]. intro H. injection H as <-. reflexivity.
Qed.

(** X13: with a test count of zero [generate_report] raises whenever there
    is a result to report: an [IndexError] if the URL of the first result
    in the display order has no "//", the [ZeroDivisionError] of the
    success rate if it has one. *)
Theorem report_raises_on_zero_test_count (cfg : Settings)
    (results : list RouteResult) :
  results <> [] -> test_count cfg = 0 ->
  exists first rest,
    sorted_results results = first :: rest /\
    generate_report cfg results
    = match index 0 "//" (route_url first) with
      | Some _ => Raised "division by zero"
      | None => Raised "list index out of range"
      end.
Proof.
  intros Hne Hz. unfold generate_report.
  destruct results as [|r0 rs0] eqn:Er; [contradiction|]. rewrite <- Er in *.
  destruct (sorted_results results) as [|r rs] eqn:Es.
  - assert (Hl : length (sorted_results results) = length results)
      by apply Permutation_length, py_sorted_reverse_perm.
    rewrite Es, Er in Hl. discriminate.
  - exists r, rs. split; [reflexivity|].
    cbn [rank_loop]. unfold rank_step, server_of, int_truediv.
    destruct (index 0 "//" (route_url r)); cbn [bind].
    + rewrite Hz. reflexivity.
    + reflexivity.
Qed.

End ReportFacts.

(* ------------------------------------------------------------------ *)
(** * Further properties: the best route *)

Section BestFacts.

Context {N : PyNum} {ok : num -> Prop} {L : PyNumLaws N ok}.

Lemma ltb_le_lt (a b c : num) :
  ok a -> ok b -> ok c ->
  (b <? a)%num = false -> (b <? c)%num = true -> (a <? c)%num = true.
Proof.
  intros Ha Hb Hc Hab Hbc. destruct (a <? c)%num eqn:E; [reflexivity|].
  rewrite <- Hbc. symmetry. now apply ltb_negtrans with a.
Qed.

Lemma rank_loop_max (cfg : Settings) (rs : list RouteResult)
    (st st' : Ranking) :
  ok (best_score st) ->
  (forall r s, In r rs -> performance_score cfg r = Returned s -> ok s) ->
  rank_loop cfg rs st = Returned st' ->
  (best_route st' = best_route st /\ best_score st' = best_score st /\
   forall r s, In r rs -> 0 < success_count r ->
     performance_score cfg r = Returned s ->
     (best_score st <? s)%num = false) \/
  (exists before best after,
     rs = before ++ best :: after /\
     best_route st' = Some best /\ 0 < success_count best /\
     performance_score cfg best = Returned (best_score st') /\
     (best_score st <? best_score st')%num = true /\
     (forall r s, In r before -> 0 < success_count r ->
        performance_score cfg r = Returned s ->
        (s <? best_score st')%num = true) /\
     (forall r s, In r after -> 0 < success_count r ->
        performance_score cfg r = Returned s ->
        (best_score st' <? s)%num = false)).
Proof.
  revert st; induction rs as [|r rs IH]; intros st Hok Hall H; simpl in H.
  - injection H as <-. left. split; [reflexivity|]. split; [reflexivity|].
    intros r s [].
  - destruct (rank_step cfg st r) as [st1|] eqn:E; [|discriminate].
    cbn [bind] in H. apply rank_step_best in E.
    assert (Hall' : forall r0 s, In r0 rs ->
              performance_score cfg r0 = Returned s -> ok s)
      by (intros r0 s Hin; apply Hall; now right).
    assert (Hstep :
      (best_route st1 = best_route st /\ best_score st1 = best_score st /\
       forall s, 0 < success_count r ->
         performance_score cfg r = Returned s ->
         (best_score st <? s)%num = false) \/
      (best_route st1 = Some r /\ 0 < success_count r /\
       performance_score cfg r = Returned (best_score st1) /\
       (best_score st <? best_score st1)%num = true)).
    { destruct (0 <? success_count r) eqn:Epos.
      - apply Z.ltb_lt in Epos. destruct E as (score & Hs & E).
        destruct (best_score st <? score)%num eqn:Elt; injection E as E1 E2.
        + right. rewrite E1, E2. auto.
        + left. split; [exact E1|]. split; [exact E2|].
          intros s _ Hs'. rewrite Hs in Hs'. injection Hs' as <-. exact Elt.
      - apply Z.ltb_ge in Epos. injection E as E1 E2. left.
        split; [exact E1|]. split; [exact E2|]. intros s Hpos. lia. }
    assert (Hok1 : ok (best_score st1)).
    { destruct Hstep as [(_ & -> & _)|(_ & _ & Hp & _)]; [exact Hok|].
      eapply Hall; [left; reflexivity | exact Hp]. }
    destruct (IH st1 Hok1 Hall' H)
      as [(Hr & Hsc & Hle)
         |(before & best & after & -> & Hb & Hpos & Hp & Hlt & Hbef & Haft)].
    + destruct Hstep as [(Hr1 & Hsc1 & Hle1)|(Hr1 & Hpos1 & Hp1 & Hlt1)].
      * left. split; [congruence|]. split; [congruence|].
        intros r0 s [<-|Hin] Hpos Hp; [now apply Hle1|].
        rewrite <- Hsc1. now apply Hle with r0.
      * right. exists [], r, rs. rewrite Hr, Hsc.
        split; [reflexivity|]. split; [exact Hr1|]. split; [exact Hpos1|].
        split; [exact Hp1|]. split; [exact Hlt1|]. split; [intros r0 s []|].
        exact Hle.
    + assert (Hok' : ok (best_score st')).
      { eapply Hall'; [|exact Hp]. apply in_or_app. right. now left. }
      right. exists (r :: before), best, after.
      split; [reflexivity|]. split; [exact Hb|]. split; [exact Hpos|].
      split; [exact Hp|].
      destruct Hstep as [(Hr1 & Hsc1 & Hle1)|(Hr1 & Hpos1 & Hp1 & Hlt1)].
      * rewrite <- Hsc1. split; [exact Hlt|]. split; [|exact Haft].
        intros r0 s [<-|Hin] Hpos0 Hp0; [|now apply Hbef with r0].
        apply ltb_le_lt with (best_score st1); auto.
        -- eapply Hall; [left; reflexivity | exact Hp0].
        -- rewrite Hsc1. now apply Hle1.
      * split; [now apply ltb_trans with (best_score st1)|].
        split; [|exact Haft].
        intros r0 s [<-|Hin] Hpos0 Hp0; [|now apply Hbef with r0].
        rewrite Hp1 in Hp0. injection Hp0 as <-. exact Hlt.
Qed.

(** X14: the best route of a report.  When the scores are ordinary numbers,
    the best route has a success and a score above -1, the routes shown
    before it that have a success score strictly lower, and no route shown
    after it scores higher: among the routes of the highest score the first
    one shown is the best route.  A report has no best route only when no
    route with a success scores above -1. *)
Theorem best_route_has_highest_score (cfg : Settings)
    (results : list RouteResult) (report : Report) :
  ok (of_Z (-1)) ->
  (forall r s, In r results -> performance_score cfg r = Returned s -> ok s) ->
  generate_report cfg results = Returned (Some report) ->
  match report_best report with
  | Some best =>
      exists before after score,
        sorted_results results = before ++ best :: after /\
        0 < success_count best /\
        performance_score cfg best = Returned score /\
        (of_Z (-1) <? score)%num = true /\
        (forall r s, In r before -> 0 < success_count r ->
           performance_score cfg r = Returned s -> (s <? score)%num = true) /\
        (forall r s, In r after -> 0 < success_count r ->
           performance_score cfg r = Returned s -> (score <? s)%num = false)
  | None =>
      forall r s, In r results -> 0 < success_count r ->
        performance_score cfg r = Returned s ->
        (of_Z (-1) <? s)%num = false
  end.
Proof.
  intros Hm Hall. unfold generate_report.
  destruct results as [|r0 rs0] eqn:Er; [discriminate|]. rewrite <- Er in *.
  clear Er r0 rs0.
  destruct (rank_loop cfg (sorted_results results) _) as [st|] eqn:E;
    [|discriminate].
  cbn [bind]. intro H.
  assert (Hbest : report_best report = best_route st).
  { destruct (best_route st) as [b|].
    - destruct (recommend cfg b); [|discriminate]. cbn [bind] in H.
      now injection H as <-.
    - cbn [bind] in H. now injection H as <-. }
  rewrite Hbest. clear H Hbest.
  assert (Hperm : Permutation (sorted_results results) results)
    by apply py_sorted_reverse_perm.
  apply rank_loop_max in E; cbn [best_score best_route] in *; auto.
  - destruct E as [(-> & Hsc & Hle)
                  |(before & best & after & Hs & -> & Hpos & Hp & Hlt & Hbef
                    & Haft)].
    + intros r s Hin. apply Hle.
      eapply Permutation_in; [apply Permutation_sym|]; eauto.
    + exists before, after, (best_score st). auto 10.
  - intros r s Hin. apply Hall. eapply Permutation_in; eauto.
Qed.

End BestFacts.

(* ------------------------------------------------------------------ *)
(** * Further properties: the sort is stable *)

Section StableFacts.

Context {A : Type} (lt : A -> A -> bool) (P : A -> Prop) (f : A -> bool).

(** Two elements that [f] selects are never strictly ordered. *)
Hypothesis selected_tie : forall y z, P y -> P z ->
  lt z y = true -> f y = true -> f z = false.

Lemma insert_sorted_filter (x : A) (l : list A) :
  P x -> Forall P l ->
  filter f (insert_sorted lt x l) = filter f (x :: l).
Proof.
  intros Hx Hl. induction Hl as [|z l Hz Hl IH]; [reflexivity|].
  cbn [insert_sorted]. destruct (lt z x) eqn:E; [|reflexivity].
  cbn [filter] in *. rewrite IH.
  destruct (f x) eqn:Ex; [|reflexivity].
  now rewrite (selected_tie Hx Hz E Ex).
Qed.

Lemma py_sorted_filter (l : list A) :
  Forall P l -> filter f (py_sorted lt l) = filter f l.
Proof.
  induction 1 as [|x l Hx Hl IH]; [reflexivity|].
  change (py_sorted lt (x :: l)) with (insert_sorted lt x (py_sorted lt l)).
  rewrite insert_sorted_filter; [cbn [filter]; now rewrite IH | exact Hx |].
  eapply Permutation_Forall; [apply Permutation_sym, py_sorted_perm|].
  exact Hl.
Qed.

Lemma py_sorted_reverse_filter (l : list A) :
  Forall P l -> filter f (py_sorted_reverse lt l) = filter f l.
Proof.
  intro Hl. unfold py_sorted_reverse.
  rewrite filter_rev, py_sorted_filter, filter_rev, rev_involutive;
    [reflexivity|].
  eapply Permutation_Forall; [apply Permutation_rev | exact Hl].
Qed.

Lemma filter_all (l : list A) :
  (forall x, In x l -> f x = true) -> filter f l = l.
Proof.
  induction l as [|x l IH]; intro H; [reflexivity|]. cbn [filter].
  rewrite (H x (or_introl eq_refl)), IH; [reflexivity|].
  intros y Hy. apply H. now right.
Qed.

End StableFacts.

Section StableOrder.

Context {N : PyNum} {ok : num -> Prop} {L : PyNumLaws N ok}.

Lemma ties_not_ordered (x y z : RouteResult) :
  rankable ok x -> rankable ok y -> rankable ok z ->
  key_lt z y = true -> ties x y = true -> ties x z = false.
Proof.
  intros Hx Hy Hz Hlt Hxy. destruct (ties x z) eqn:Hxz; [|reflexivity].
  rewrite key_lt_spec in Hlt by assumption.
  unfold ties in *. apply andb_prop in Hxy, Hxz.
  destruct Hxy as [E1 A1], Hxz as [E2 A2]. apply Z.eqb_eq in E1, E2.
  destruct Hx as [_ Hx], Hy as [_ Hy], Hz as [_ Hz].
  apply (eqb_eq _ _ Hx Hy) in A1. apply (eqb_eq _ _ Hx Hz) in A2.
  replace (success_count z =? success_count y) with true in Hlt
    by (symmetry; apply Z.eqb_eq; congruence).
  rewrite <- A1, <- A2, (ltb_irrefl _ Hx) in Hlt. discriminate.
Qed.

(** X15: the display order is stable.  The routes that tie with a given one,
    as many successes and the same mean first-byte duration, are shown in
    the order in which they were recorded; results that all tie, such as
    those of routes without a success, are shown as recorded. *)
Theorem display_order_is_stable (results : list RouteResult)
    (x : RouteResult) :
  Forall (rankable ok) results -> rankable ok x ->
  filter (ties x) (sorted_results results) = filter (ties x) results /\
  ((forall r, In r results -> ties x r = true) ->
   sorted_results results = results).
Proof.
  intros Hr Hx.
  assert (Hf : filter (ties x) (sorted_results results)
               = filter (ties x) results).
  { apply py_sorted_reverse_filter with (P := rankable ok); [|exact Hr].
    intros y z Hy Hz. now apply ties_not_ordered. }
  split; [exact Hf|]. intro Hall.
  rewrite (filter_all (ties x) results Hall) in Hf. rewrite <- Hf at 2.
  symmetry. apply filter_all. intros r Hin. apply Hall.
  eapply Permutation_in; [apply py_sorted_reverse_perm | exact Hin].
Qed.

End StableOrder.

(* ------------------------------------------------------------------ *)
(** * Further properties: the routes of the configuration *)

Section ConfigFacts.

Lemma dict_set_in {V} (k : string) (v : V) (d : list (string * V))
    (x : string * V) :
  In x (dict_set k v d) -> x = (k, v) \/ In x d.
Proof.
  induction d as [|[k' v'] d IH]; simpl.
  - intros [<-|[]]. now left.
  - destruct (String.eqb k k').
    + intros [<-|H]; [now left | right; now right].
    + intros [<-|H]; [right; now left|].
      destruct (IH H); [now left | right; now right].
Qed.

Lemma dict_set_set {V} (k : string) (v : V) (d : list (string * V)) :
  In (k, v) (dict_set k v d).
Proof.
  induction d as [|[k' v'] d IH]; simpl; [now left|].
  destruct (String.eqb k k'); [now left | now right].
Qed.

Lemma dict_set_other {V} (k : string) (v : V) (d : list (string * V))
    (k' : string) (v' : V) :
  k' <> k -> In (k', v') d -> In (k', v') (dict_set k v d).
Proof.
  intro Hne. induction d as [|[k1 v1] d IH]; simpl; [intros []|].
  destruct (String.eqb_spec k k1) as [->|E].
  - intros [H|H]; [injection H as -> ->; contradiction | now right].
  - intros [H|H]; [now left | right; now apply IH].
Qed.

Lemma dict_set_key {V} (k : string) (v : V) (d : list (string * V))
    (k' : string) :
  In k' (map fst d) -> In k' (map fst (dict_set k v d)).
Proof.
  induction d as [|[k1 v1] d IH]; simpl; [intros []|].
  destruct (String.eqb_spec k k1) as [->|E]; simpl.
  - auto.
  - intros [H|H]; [now left | right; now apply IH].
Qed.

Lemma dict_set_nodup {V} (k : string) (v : V) (d : list (string * V)) :
  NoDup (map fst d) -> NoDup (map fst (dict_set k v d)).
Proof.
  induction d as [|[k1 v1] d IH]; simpl; intro H.
  - constructor; [intros []|constructor].
  - inversion H as [|? ? Hn Hd]; subst.
    destruct (String.eqb_spec k k1) as [->|E]; simpl.
    + now constructor.
    + constructor; [|now apply IH].
      intro Hin. apply in_map_iff in Hin. destruct Hin as ([k2 v2] & <- & Hin).
      apply dict_set_in in Hin. destruct Hin as [Hin|Hin].
      * injection Hin as -> ->. now apply E.
      * apply Hn. now apply (in_map fst) in Hin.
Qed.

(** One turn of the loop of [load_config]. *)
Lemma load_routes_step (s : SectionView) (sections : list SectionView)
    (routes0 routes : list (string * RouteInfo)) :
  load_routes (s :: sections) routes0 = Returned routes ->
  readable s /\
  ((~ is_route s /\ load_routes sections routes0 = Returned routes) \/
   (exists info, describes s info /\
      load_routes sections (dict_set (name info) info routes0)
      = Returned routes)).
Proof.
  cbn [load_routes]. unfold readable, describes, is_route.
  destruct (prefix "route_" (section_name s)).
  - destruct (enabled s) as [[|]|]; cbn [bind]; [| |discriminate].
    + destruct (read_name s) as [n|]; [|discriminate].
      destruct (read_url s) as [u|]; [|discriminate].
      destruct (read_description s) as [d|]; [|discriminate].
      cbn [bind name]. intro H. split.
      * intros _. exists true. split; [reflexivity|]. intros _.
        exists {| name := n; url := u; description := d |}. auto.
      * right. exists {| name := n; url := u; description := d |}. auto.
    + intro H. split.
      * intros _. exists false. split; [reflexivity | discriminate].
      * left. split; [intros [_ E]; discriminate | exact H].
  - intro H. split; [discriminate|].
    left. split; [intros [E _]; discriminate | exact H].
Qed.

Lemma load_routes_app (before after : list SectionView)
    (routes0 routes : list (string * RouteInfo)) :
  load_routes (before ++ after) routes0 = Returned routes ->
  exists routes1,
    load_routes before routes0 = Returned routes1 /\
    load_routes after routes1 = Returned routes.
Proof.
  revert routes0; induction before as [|s before IH]; intros routes0 H.
  - exists routes0. auto.
  - cbn [app load_routes] in *.
    destruct (prefix "route_" (section_name s)); [|now apply IH].
    destruct (enabled s) as [[|]|]; cbn [bind] in *;
      [| now apply IH | discriminate].
    destruct (read_name s); [|discriminate].
    destruct (read_url s); [|discriminate].
    destruct (read_description s); [|discriminate].
    cbn [bind] in *. now apply IH.
Qed.

Lemma load_routes_inv (sections : list SectionView)
    (routes0 routes : list (string * RouteInfo)) :
  load_routes sections routes0 = Returned routes ->
  (NoDup (map fst routes0) -> NoDup (map fst routes)) /\
  (forall k, In k (map fst routes0) -> In k (map fst routes)) /\
  (forall k info, In (k, info) routes ->
     In (k, info) routes0 \/
     k = name info /\ exists s, In s sections /\ describes s info) /\
  (forall s info, In s sections -> describes s info ->
     In (name info) (map fst routes)).
Proof.
  revert routes0; induction sections as [|s sections IH]; intros routes0 H.
  - injection H as <-. repeat split; auto. intros s info [].
  - apply load_routes_step in H.
    destruct H as [_ [(Hno & H)|(info & Hd & H)]];
      destruct (IH _ H) as (Hnd & Hkeys & Hfrom & Hall); clear IH.
    + split; [exact Hnd|]. split; [exact Hkeys|]. split.
      * intros k i Hin. destruct (Hfrom k i Hin) as [?|(-> & s' & Hs' & Hd')];
          [now left|].
        right. split; [reflexivity|]. exists s'. split; [now right | exact Hd'].
      * intros s' i [<-|Hin] Hd'; [destruct Hd' as [Hr _]; contradiction|].
        now apply Hall with s'.
    + split; [intro Hn0; now apply Hnd, dict_set_nodup|].
      split; [intros k Hin; now apply Hkeys, dict_set_key|]. split.
      * intros k i Hin.
        destruct (Hfrom k i Hin) as [Hin'|(-> & s' & Hs' & Hd')].
        -- apply dict_set_in in Hin'. destruct Hin' as [E|Hin']; [|now left].
           injection E as -> ->. right. split; [reflexivity|].
           exists s. split; [now left | exact Hd].
        -- right. split; [reflexivity|]. exists s'.
           split; [now right | exact Hd'].
      * intros s' i [<-|Hin] Hd'; [|now apply Hall with s'].
        apply Hkeys.
        replace (name i) with (name info)
          by (destruct Hd as (_ & E1 & _), Hd' as (_ & E2 & _); congruence).
        change (name info) with (fst (name info, info)) at 1.
        apply in_map, dict_set_set.
Qed.

Lemma load_routes_keeps (sections : list SectionView)
    (routes0 routes : list (string * RouteInfo)) (k : string)
    (info : RouteInfo) :
  load_routes sections routes0 = Returned routes ->
  In (k, info) routes0 ->
  (forall s info', In s sections -> describes s info' -> name info' <> k) ->
  In (k, info) routes.
Proof.
  revert routes0; induction sections as [|s sections IH];
    intros routes0 H Hin Hno.
  - now injection H as <-.
  - apply load_routes_step in H.
    destruct H as [_ [(_ & H)|(info' & Hd & H)]].
    + apply (IH _ H Hin). intros s' i Hs'. apply Hno. now right.
    + apply (IH _ H).
      * apply dict_set_other; [|exact Hin].
        intro E. apply (Hno s info'); [now left | exact Hd | now symmetry].
      * intros s' i Hs'. apply Hno. now right.
Qed.

Lemma load_routes_readable (sections : list SectionView)
    (routes0 : list (string * RouteInfo)) :
  (exists routes, load_routes sections routes0 = Returned routes) <->
  Forall readable sections.
Proof.
  revert routes0; induction sections as [|s sections IH]; intro routes0.
  - split; [constructor | eexists; reflexivity].
  - split.
    + intros [routes H]. apply load_routes_step in H.
      destruct H as [Hr [(_ & H)|(info & _ & H)]]; constructor; auto;
        eapply IH; eauto.
    + intro H. inversion H as [|? ? Hs Hrest]; subst.
      cbn [load_routes]. unfold readable, describes in Hs.
      destruct (prefix "route_" (section_name s)); [|now apply IH].
      destruct (Hs eq_refl) as ([|] & -> & Hinfo); cbn [bind];
        [|now apply IH].
      destruct (Hinfo eq_refl) as (info & _ & -> & -> & ->). cbn [bind].
      now apply IH.
Qed.

(** X16: the routes that [load_config] loads.  No two of them have the same
    name, each is filed under its own name and is described by a section
    whose name starts with "route_" and that is enabled, and each such
    section has its name among the routes. *)
Theorem loaded_routes_come_from_sections (sections : list SectionView)
    (routes : list (string * RouteInfo)) :
  load_routes sections [] = Returned routes ->
  NoDup (map fst routes) /\
  (forall k info, In (k, info) routes ->
     k = name info /\ exists s, In s sections /\ describes s info) /\
  (forall s info, In s sections -> describes s info ->
     In (name info) (map fst routes)).
Proof.
  intro H. apply load_routes_inv in H.
  destruct H as (Hnd & _ & Hfrom & Hall).
  split; [apply Hnd; constructor|]. split; [|exact Hall].
  intros k info Hin. destruct (Hfrom k info Hin) as [[]|?]. assumption.
Qed.

(** X17: of the sections that give the same route name, the last one is the
    one that is loaded: a route described by a section after which no
    section describes a route of that name is among the routes. *)
Theorem last_section_wins (before after : list SectionView)
    (s : SectionView) (info : RouteInfo)
    (routes : list (string * RouteInfo)) :
  load_routes (before ++ s :: after) [] = Returned routes ->
  describes s info ->
  (forall s' info', In s' after -> describes s' info' ->
     name info' <> name info) ->
  In (name info, info) routes.
Proof.
  intros H Hd Hlast. apply load_routes_app in H.
  destruct H as (routes1 & _ & H). apply load_routes_step in H.
  destruct H as [_ [(Hno & _)|(info' & Hd' & H)]].
  - destruct Hd as [Hr _]. contradiction.
  - assert (info' = info) as ->.
    { destruct Hd as (_ & E1 & E2 & E3), Hd' as (_ & F1 & F2 & F3).
      destruct info, info'. cbn [name url description] in *. congruence. }
    eapply load_routes_keeps; [exact H | apply dict_set_set | exact Hlast].
Qed.

(** X18: [load_config] loads the routes without an exception exactly when
    every section whose name starts with "route_" has a readable [enabled]
    option and, if enabled, a name, a URL and a description that can be
    read; sections of other names are not looked at. *)
Theorem routes_load_iff_readable (sections : list SectionView) :
  (exists routes, load_routes sections [] = Returned routes) <->
  Forall readable sections.
Proof. apply load_routes_readable. Qed.

End ConfigFacts.

(* ------------------------------------------------------------------ *)
(** * Further properties: the whole run *)

Section RunFacts.

Context {N : PyNum}.

Lemma show_config_info_returns (routes : list (string * RouteInfo)) :
  (forall route, In route routes ->
     exists host, server_of (url (snd route)) = Returned host) ->
  show_config_info routes = Returned tt.
Proof.
  induction routes as [|[k info] routes IH]; intro H; [reflexivity|].
  cbn [show_config_info].
  destruct (H (k, info) (or_introl eq_refl)) as [host Hh].
  cbn [snd] in Hh. rewrite Hh. cbn [bind].
  apply IH. intros route Hin. apply H. now right.
Qed.

Lemma show_config_info_raises (routes : list (string * RouteInfo)) :
  (exists route, In route routes /\ index 0 "//" (url (snd route)) = None) ->
  show_config_info routes = Raised "list index out of range".
Proof.
  intros (route & Hin & Hi). induction routes as [|[k info] routes IH];
    [destruct Hin|].
  cbn [show_config_info]. unfold server_of at 1.
  destruct Hin as [<-|Hin].
  - cbn [snd] in Hi. rewrite Hi. reflexivity.
  - destruct (index 0 "//" (url info)); cbn [bind]; [now apply IH|reflexivity].
Qed.

Lemma run_tests_async_completes (cfg : Settings)
    (routes : list (string * RouteInfo)) (env : string -> RouteEnv) :
  forallb (runs env) routes = true -> test_count cfg <> 0 ->
  run_tests_async cfg routes true env []
  = (map (route_async cfg env) routes, None).
Proof.
  intros Hruns Hn. unfold run_tests_async.
  destruct routes as [|route routes]; [reflexivity|].
  cbn [negb]. rewrite gather_routes_no_fault by exact Hruns.
  apply publish_async_lines. intros r Hin.
  apply in_map_iff in Hin. destruct Hin as (rt & <- & _).
  apply route_line_built, Hn.
Qed.

Lemma built_reportable (outs : list (Outcome TestResult)) (rn : string)
    (ri : RouteInfo) :
  let r := fold_left tally_async outs (new_results rn ri) in
  (exists host, server_of (url ri) = Returned host) ->
  (0 < success_count r ->
   (mean (first_byte_times r) + of_Q (1 # 10) =? of_Z 0)%num = false) ->
  reportable r.
Proof.
  cbn zeta. intros Hh Hz.
  destruct (fold_tally outs (new_results rn ri))
    as (_ & Hu & _ & Hc & _ & Ht & Hb & _).
  split; [now rewrite Hu|]. intro Hpos.
  split; [|split; [|now apply Hz]].
  - rewrite Hb. rewrite Hc in Hpos. cbn [new_results success_count
      first_byte_times app] in *.
    destruct (successes outs); [cbn in Hpos; lia | discriminate].
  - rewrite Ht. rewrite Hc in Hpos. cbn [new_results success_count
      total_times app] in *.
    destruct (successes outs); [cbn in Hpos; lia | discriminate].
Qed.

(** The report of the results that the runners built for some routes. *)
Lemma report_of_built (cfg : Settings) (env : string -> RouteEnv)
    (routes : list (string * RouteInfo)) (rs : list RouteResult)
    (result_of : string * RouteInfo -> RouteResult) :
  result_of = route_async cfg env \/ result_of = route_sync cfg env ->
  routes <> [] ->
  test_count cfg <> 0 ->
  (forall route, In route routes ->
     exists host, server_of (url (snd route)) = Returned host) ->
  (forall route, In route routes ->
     0 < success_count (result_of route) ->
     (mean (first_byte_times (result_of route)) + of_Q (1 # 10)
      =? of_Z 0)%num = false) ->
  Permutation rs (map result_of routes) ->
  exists report,
    generate_report cfg rs = Returned (Some report) /\
    Permutation (map (fun row => route_name (row_result row))
                   (report_table report))
      (map fst routes).
Proof.
  intros Hof Hne Hn Hurl Hz Hperm.
  assert (Hall : Forall reportable rs).
  { eapply Permutation_Forall; [apply Permutation_sym, Hperm|].
    apply Forall_forall. intros r Hin. apply in_map_iff in Hin.
    destruct Hin as (route & <- & Hin).
    specialize (Hz route Hin). specialize (Hurl route Hin). clear Hperm.
    destruct Hof as [-> | ->].
    - now apply built_reportable.
    - unfold route_sync, test_route_sync in *.
      change (@tally_sync N) with (@tally_async N) in *.
      now apply built_reportable. }
  assert (Hrs : rs <> []).
  { intros ->. apply Permutation_nil in Hperm.
    destruct routes; [contradiction | discriminate]. }
  destruct (@generate_report_returns N cfg rs Hrs Hn Hall) as [report Hr].
  exists report. split; [exact Hr|].
  apply generate_report_table in Hr. destruct Hr as [Ht _].
  rewrite <- (map_map row_result route_name), Ht.
  transitivity (map route_name rs);
    [apply Permutation_map, py_sorted_reverse_perm|].
  rewrite (Permutation_map route_name Hperm), map_map.
  erewrite map_ext; [reflexivity|]. intro route.
  destruct Hof as [-> | ->];
    [apply route_async_name | apply route_sync_name].
Qed.

(** X19: the whole run.  With a token that starts with "sk-", a confirmed
    run, at least one route, URLs that have a "//", a test count other than
    zero, no runner that raises and no route whose mean first-byte duration
    is -0.1, [run] ends with a report under either strategy, and the table
    of the report has one row for each configured route. *)
Theorem run_reports_every_route (cfg : Settings)
    (routes : list (string * RouteInfo)) (w : World) :
  let result_of :=
    if use_async cfg then route_async cfg (route_env w)
    else route_sync cfg (route_env w) in
  prefix "sk-" (token w) = true ->
  confirmed w = true ->
  routes <> [] ->
  test_count cfg <> 0 ->
  (forall route, In route routes ->
     exists host, server_of (url (snd route)) = Returned host) ->
  forallb (runs (route_env w)) routes = true ->
  (forall route, In route routes ->
     0 < success_count (result_of route) ->
     (mean (first_byte_times (result_of route)) + of_Q (1 # 10)
      =? of_Z 0)%num = false) ->
  exists report,
    run cfg routes w = Returned (Some report) /\
    Permutation (map (fun row => route_name (row_result row))
                   (report_table report))
      (map fst routes).
Proof.
  cbn zeta. intros Htok Hconf Hne Hn Hurl Hruns Hz.
  unfold run. rewrite show_config_info_returns by exact Hurl. cbn [bind].
  rewrite Htok, Hconf. cbn [negb].
  destruct (use_async cfg) eqn:Ea.
  - rewrite run_tests_async_completes by assumption.
    apply report_of_built with (env := route_env w)
                               (result_of := route_async cfg (route_env w));
      auto.
  - rewrite run_tests_sync_results. cbn [app].
    apply report_of_built with (env := route_env w)
                               (result_of := route_sync cfg (route_env w));
      auto.
    apply Permutation_map.
    rewrite <- (forallb_filter_id _ _ Hruns) at 2.
    apply filter_perm, as_completed_perm.
Qed.

(** X20: [run] without a test.  A route whose URL has no "//" makes [run]
    raise an [IndexError] while the configuration is shown, before the token
    is asked; otherwise a token that does not start with "sk-" ends the run
    without a report. *)
Theorem run_stops_before_probing (cfg : Settings)
    (routes : list (string * RouteInfo)) (w : World) :
  ((exists route, In route routes /\ index 0 "//" (url (snd route)) = None) ->
   run cfg routes w = Raised "list index out of range") /\
  ((forall route, In route routes ->
      exists host, server_of (url (snd route)) = Returned host) ->
   prefix "sk-" (token w) = false ->
   run cfg routes w = Returned None).
Proof.
  split.
  - intro H. unfold run. now rewrite show_config_info_raises.
  - intros Hurl Htok. unfold run.
    rewrite show_config_info_returns by exact Hurl. cbn [bind].
    now rewrite Htok.
Qed.

(** X22: a runner that raises, end to end.  Under the cooperative strategy
    [run] raises the exception of the runner and no report is made; under
    the thread-based strategy the report has one row for each route whose
    runner returned, and when no runner returned the run ends without a
    report and without an exception. *)
Theorem run_with_a_faulting_runner (cfg : Settings)
    (routes : list (string * RouteInfo)) (w : World) :
  prefix "sk-" (token w) = true ->
  confirmed w = true ->
  test_count cfg <> 0 ->
  (forall route, In route routes ->
     exists host, server_of (url (snd route)) = Returned host) ->
  forallb (runs (route_env w)) routes = false ->
  (forall route, In route routes ->
     0 < success_count (route_sync cfg (route_env w) route) ->
     (mean (first_byte_times (route_sync cfg (route_env w) route))
      + of_Q (1 # 10) =? of_Z 0)%num = false) ->
  if use_async cfg then
    exists route msg,
      In route routes /\ fault (route_env w (fst route)) = Some msg /\
      run cfg routes w = Raised msg
  else
    match filter (runs (route_env w)) routes with
    | [] => run cfg routes w = Returned None
    | _ :: _ =>
        exists report,
          run cfg routes w = Returned (Some report) /\
          Permutation (map (fun row => route_name (row_result row))
                         (report_table report))
            (map fst (filter (runs (route_env w)) routes))
    end.
Proof.
  intros Htok Hconf Hn Hurl Hruns Hz.
  unfold run. rewrite show_config_info_returns by exact Hurl. cbn [bind].
  rewrite Htok, Hconf. cbn [negb].
  destruct (use_async cfg).
  - destruct (gather_routes_fault cfg (route_env w) routes Hruns)
      as (route & msg & Hin & Hf & G).
    exists route, msg. split; [exact Hin|]. split; [exact Hf|].
    unfold run_tests_async. destruct routes as [|route0 routes0];
      [destruct Hin|].
    cbn [negb]. rewrite G. reflexivity.
  - rewrite run_tests_sync_results. cbn [app].
    assert (Hperm : Permutation
                      (filter (runs (route_env w))
                         (as_completed (route_order w) routes))
                      (filter (runs (route_env w)) routes))
      by apply filter_perm, as_completed_perm.
    destruct (filter (runs (route_env w)) routes) as [|route served] eqn:Ef.
    + apply Permutation_sym, Permutation_nil in Hperm. rewrite Hperm.
      reflexivity.
    + rewrite <- Ef in *.
      apply report_of_built with (env := route_env w)
                                 (result_of := route_sync cfg (route_env w));
        auto.
      * rewrite Ef. discriminate.
      * intros r Hin. apply filter_In in Hin. now apply Hurl.
      * intros r Hin. apply filter_In in Hin. now apply Hz.
      * now apply Permutation_map.
Qed.

End RunFacts.

(* ------------------------------------------------------------------ *)
(** * Further properties: the statistics *)

Section StatsMore.

Context {N : PyNum} {ok : num -> Prop} {L : PyNumLaws N ok}.

(** X21: the statistics of durations that are ordinary numbers do not depend
    on the order of the durations; when there is a duration, the minimum and
    the maximum are durations of the sequence, no duration is below the
    minimum or above the maximum, and the median of an odd number of
    durations is one of them. *)
Theorem statistics_bounds (times : list num) :
  Forall ok times ->
  (forall times', Permutation times times' ->
     calculate_stats times' = calculate_stats times) /\
  (times <> [] ->
   let st := calculate_stats times in
   In (min st) times /\ In (max st) times /\
   (forall x, In x times ->
      (x <? min st)%num = false /\ (max st <? x)%num = false) /\
   (Nat.odd (length times) = true -> In (median st) times)).
Proof.
  intro Hok. split.
  - intros times' Hperm. symmetry. now apply calculate_stats_perm.
  - destruct times as [|first rest]; [contradiction|]. intros _. cbn zeta.
    cbn [calculate_stats min max median].
    inversion Hok as [|? ? Hf Hr]; subst.
    destruct (@py_min_spec N ok L rest first Hf Hr) as [Hmin Hle].
    destruct (@py_max_spec N ok L rest first Hf Hr) as [Hmax Hge].
    split; [exact Hmin|]. split; [exact Hmax|]. split.
    + intros x Hx. split; [now apply Hle | now apply Hge].
    + intro Hodd. unfold py_median.
      assert (Hperm : Permutation (py_sorted ltb (first :: rest))
                        (first :: rest)) by apply py_sorted_perm.
      rewrite (Permutation_length Hperm).
      assert (E : (length (first :: rest) mod 2 =? 1)%nat = true).
      { apply Nat.eqb_eq. rewrite Nat.odd_spec in Hodd.
        destruct Hodd as [m ->].
        rewrite Nat.add_comm, Nat.mul_comm, Nat.Div0.mod_add. reflexivity. }
      rewrite E. eapply Permutation_in; [exact Hperm|].
      apply nth_In. rewrite (Permutation_length Hperm).
      apply Nat.div_lt; [cbn [length]|]; lia.
Qed.

End StatsMore.

(* ------------------------------------------------------------------ *)
(** * The further properties on examples *)

Section MoreWorked.

Import Exact Binary64 ExactLaws Binary64Laws.

Lemma no_probes_witness :
  test_route_async (N := binary64) no_probes "A" info_a mixed_prober
  = new_results "A" info_a /\
  test_route_sync (N := binary64) no_probes "A" info_a [3%nat] mixed_prober
  = new_results "A" info_a.
Proof.
  apply (no_probes_when_count_not_positive no_probes "A" info_a [3%nat]
           mixed_prober).
  cbn. lia.
Defined.

Lemma async_fault_aborts_witness :
  exists route msg,
    In route two_routes /\ fault (a_faults (N := binary64) (fst route))
                           = Some msg /\
    run_tests_async (N := binary64) two_probes_async two_routes true
      a_faults []
    = ([], Some msg).
Proof.
  apply (async_fault_aborts (N := binary64) two_probes_async two_routes
           a_faults []).
  reflexivity.
Defined.

Lemma zero_test_count_witness :
  run_tests_async (N := binary64) no_probes (("A"%string, info_a)
                                             :: [("B"%string, info_b)])
    true calm []
  = ([] ++ [new_results (fst ("A"%string, info_a))
              (snd ("A"%string, info_a))],
     Some "division by zero"%string) /\
  run_tests_sync (N := binary64) no_probes (("A"%string, info_a)
                                            :: [("B"%string, info_b)])
    true [1%nat] calm []
  = ([] ++
       map (fun r => new_results (fst r) (snd r))
         (as_completed [1%nat] (("A"%string, info_a)
                                :: [("B"%string, info_b)])),
     None).
Proof.
  apply (zero_test_count_runs (N := binary64) no_probes
           ("A"%string, info_a) [("B"%string, info_b)] calm [1%nat] []).
  - reflexivity.
  - reflexivity.
Defined.

Lemma results_only_grow_witness :
  run_tests_async (N := binary64) two_probes two_routes false calm
    [route_ten]
  = ([route_ten], None) /\
  run_tests_sync (N := binary64) two_probes two_routes false [] calm
    [route_ten]
  = ([route_ten], None).
Proof.
  apply (proj2 (proj2 (results_only_grow (N := binary64) two_probes
                         two_routes false calm [] [route_ten]))).
  left. reflexivity.
Defined.

Lemma sync_records_every_route_witness :
  let rs := fst (run_tests_sync (N := binary64) two_probes two_routes true
                   [1%nat] calm []) in
  Permutation (map route_name rs) (map fst two_routes) /\
  length rs = length two_routes.
Proof.
  apply (proj2 (sync_records_every_route (N := binary64) two_probes
                  two_routes calm [1%nat])).
  reflexivity.
Defined.

Lemma report_table_witness :
  exists report,
    generate_report (N := binary64) ten_probes
      [route_with "A" 8 (3 # 10); route_with "B" 10 (5 # 10)]
    = Returned (Some report).
Proof.
  apply (proj1 (report_table_is_display_order (N := binary64) ten_probes
                  [route_with "A" 8 (3 # 10); route_with "B" 10 (5 # 10)])).
  - discriminate.
  - discriminate.
  - repeat (apply Forall_cons;
            [split;
             [eexists; vm_compute; reflexivity
             |intros _; split; [discriminate|split; [discriminate|];
                                vm_compute; reflexivity]]|]).
    apply Forall_nil.
Defined.

Lemma recommendation_witness :
  exists report,
    generate_report (N := binary64) ten_probes [route_with "B" 10 (5 # 10)]
    = Returned (Some report) /\
    match report_best report with
    | Some best =>
        first_byte_times best <> [] /\ total_times best <> [] /\
        report_recommendation report
        = Some {| recommended := route_name best;
                  avg_first_byte_ms :=
                    (mean (first_byte_times best) * of_Z 1000)%num;
                  avg_total_ms := (mean (total_times best) * of_Z 1000)%num;
                  success_rate_percent :=
                    (ratio (success_count best) (test_count ten_probes)
                     * of_Z 100)%num |}
    | None => report_recommendation report = None
    end.
Proof.
  destruct (generate_report (N := binary64) ten_probes
              [route_with "B" 10 (5 # 10)]) as [[report|]|msg] eqn:E.
  - exists report. split; [reflexivity|].
    exact (recommendation_matches_best ten_probes
             [route_with "B" 10 (5 # 10)] E).
  - apply (f_equal (fun o => match o with
                             | Returned (Some _) => true
                             | _ => false
                             end)) in E.
    vm_compute in E. discriminate.
  - apply (f_equal (fun o => match o with
                             | Returned (Some _) => true
                             | _ => false
                             end)) in E.
    vm_compute in E. discriminate.
Defined.

Lemma report_raises_witness :
  exists first rest,
    sorted_results [new_results (N := binary64) "C" info_c; route_ten]
    = first :: rest /\
    generate_report no_probes [new_results (N := binary64) "C" info_c;
                               route_ten]
    = match index 0 "//" (route_url first) with
      | Some _ => Raised "division by zero"
      | None => Raised "list index out of range"
      end.
Proof.
  apply (@report_raises_on_zero_test_count binary64 no_probes
           [new_results "C" info_c; route_ten]).
  - discriminate.
  - reflexivity.
Defined.

Lemma best_route_witness :
  exists report,
    generate_report (N := exact) ten_probes
      [route_with "A" 8 (3 # 10); route_with "B" 10 (5 # 10)]
    = Returned (Some report) /\
    match report_best report with
    | Some best =>
        exists before after score,
          sorted_results
            [route_with (N := exact) "A" 8 (3 # 10);
             route_with "B" 10 (5 # 10)]
          = before ++ best :: after /\
          0 < success_count best /\
          performance_score ten_probes best = Returned score /\
          (of_Z (-1) <? score)%num = true /\
          (forall r s, In r before -> 0 < success_count r ->
             performance_score ten_probes r = Returned s ->
             (s <? score)%num = true) /\
          (forall r s, In r after -> 0 < success_count r ->
             performance_score ten_probes r = Returned s ->
             (score <? s)%num = false)
    | None =>
        forall r s,
          In r [route_with (N := exact) "A" 8 (3 # 10);
                route_with "B" 10 (5 # 10)] ->
          0 < success_count r ->
          performance_score ten_probes r = Returned s ->
          (of_Z (-1) <? s)%num = false
    end.
Proof.
  destruct (generate_report (N := exact) ten_probes
              [route_with "A" 8 (3 # 10); route_with "B" 10 (5 # 10)])
    as [[report|]|msg] eqn:E.
  - exists report. split; [reflexivity|].
    apply (best_route_has_highest_score (N := exact) (ok := fun _ => True)
             ten_probes
             [route_with "A" 8 (3 # 10); route_with "B" 10 (5 # 10)]).
    + exact I.
    + intros r s _ _. exact I.
    + exact E.
  - apply (f_equal (fun o => match o with
                             | Returned (Some _) => true
                             | _ => false
                             end)) in E.
    vm_compute in E. discriminate.
  - apply (f_equal (fun o => match o with
                             | Returned (Some _) => true
                             | _ => false
                             end)) in E.
    vm_compute in E. discriminate.
Defined.

Lemma display_order_is_stable_witness :
  filter (ties (route_with (N := binary64) "A" 8 (3 # 10)))
    (sorted_results [route_with "A" 8 (3 # 10); route_with "B" 10 (5 # 10);
                     route_with "C" 8 (3 # 10)])
  = filter (ties (route_with (N := binary64) "A" 8 (3 # 10)))
      [route_with "A" 8 (3 # 10); route_with "B" 10 (5 # 10);
       route_with "C" 8 (3 # 10)].
Proof.
  apply (proj1 (display_order_is_stable (N := binary64)
                  (ok := fun x : float => ordinary x = true)
                  (results := [route_with "A" 8 (3 # 10);
                               route_with "B" 10 (5 # 10);
                               route_with "C" 8 (3 # 10)])
                  (x := route_with "A" 8 (3 # 10))
                  ltac:(repeat (apply Forall_cons;
                                [split; vm_compute; reflexivity|]);
                        apply Forall_nil)
                  ltac:(split; vm_compute; reflexivity))).
Defined.

Lemma loaded_routes_witness :
  NoDup (map fst [("A"%string, info_a'); ("B"%string, info_b)]) /\
  (forall k info, In (k, info) [("A"%string, info_a'); ("B"%string, info_b)] ->
     k = name info /\ exists s, In s some_sections /\ describes s info) /\
  (forall s info, In s some_sections -> describes s info ->
     In (name info) (map fst [("A"%string, info_a'); ("B"%string, info_b)])).
Proof.
  apply (loaded_routes_come_from_sections some_sections).
  reflexivity.
Defined.

Lemma last_section_wins_witness :
  In (name info_a', info_a') [("A"%string, info_a'); ("B"%string, info_b)].
Proof.
  apply (last_section_wins
           [route_section "route_Main" info_a; concurrent_section]
           [off_section; route_section "route_CDN" info_b]
           (s := route_section "route_Main2" info_a')).
  - reflexivity.
  - repeat split.
  - intros s' info' [<-|[<-|[]]] (Hr & Hn & _) E.
    + destruct Hr as [_ Hr]. discriminate Hr.
    + cbn in Hn, E. rewrite E in Hn. discriminate Hn.
Defined.

Lemma run_reports_every_route_witness :
  exists report,
    run (N := binary64) two_probes two_routes calm_world
    = Returned (Some report) /\
    Permutation (map (fun row => route_name (row_result row))
                   (report_table report))
      (map fst two_routes).
Proof.
  apply (@run_reports_every_route binary64 two_probes two_routes
           calm_world).
  - reflexivity.
  - reflexivity.
  - discriminate.
  - discriminate.
  - intros route [<-|[<-|[]]]; eexists; vm_compute; reflexivity.
  - reflexivity.
  - intros route [<-|[<-|[]]] _; vm_compute; reflexivity.
Defined.

Lemma run_stops_witness :
  run (N := binary64) two_probes [("A"%string, info_a); ("C"%string, info_c)]
    calm_world
  = Raised "list index out of range".
Proof.
  apply (proj1 (run_stops_before_probing (N := binary64) two_probes
                  [("A"%string, info_a); ("C"%string, info_c)] calm_world)).
  exists ("C"%string, info_c). split; [right; left; reflexivity|].
  reflexivity.
Defined.

Lemma statistics_bounds_witness :
  let times := [@of_Q binary64 (3 # 10); of_Q (1 # 10); of_Q (2 # 10)] in
  let st := calculate_stats times in
  In (min st) times /\ In (max st) times /\
  (forall x, In x times ->
     (x <? min st)%num = false /\ (max st <? x)%num = false) /\
  (Nat.odd (length times) = true -> In (median st) times).
Proof.
  apply (proj2 (statistics_bounds (N := binary64)
                  (ok := fun x : float => ordinary x = true)
                  (times := [@of_Q binary64 (3 # 10); of_Q (1 # 10);
                             of_Q (2 # 10)])
                  ltac:(repeat (apply Forall_cons;
                                [vm_compute; reflexivity|]);
                        apply Forall_nil))).
  discriminate.
Defined.

Lemma run_with_a_faulting_runner_witness :
  if use_async two_probes then
    exists route msg,
      In route two_routes /\
      fault (route_env (a_faults_world (N := binary64)) (fst route))
      = Some msg /\
      run two_probes two_routes a_faults_world = Raised msg
  else
    match filter (runs (route_env (a_faults_world (N := binary64))))
            two_routes with
    | [] => run two_probes two_routes a_faults_world = Returned None
    | _ :: _ =>
        exists report,
          run two_probes two_routes a_faults_world
          = Returned (Some report) /\
          Permutation (map (fun row => route_name (row_result row))
                         (report_table report))
            (map fst (filter (runs (route_env a_faults_world)) two_routes))
    end.
Proof.
  apply (@run_with_a_faulting_runner binary64 two_probes two_routes
           a_faults_world).
  - reflexivity.
  - reflexivity.
  - discriminate.
  - intros route [<-|[<-|[]]]; eexists; vm_compute; reflexivity.
  - reflexivity.
  - intros route [<-|[<-|[]]] _; vm_compute; reflexivity.
Defined.

End MoreWorked.
